(** * JS-Input-TimeSuggestion: the duration parser and its two formatters

    A shallow embedding of [parseDuration], [formatSuggestion] and [formatHMS]
    from [src/js-input-time-suggestion.js], together with the few JavaScript
    built-ins they call (string methods, [parseInt], number-to-string
    conversion, and the backtracking matcher behind the four regular
    expression literals).  The second part embeds [mergeConfig] and the
    listeners that [init] binds to a field ([updateValidity], the initial
    parse, input, blur and the two click listeners) as functions on the
    state of that field.

    Conventions of the embedding.
    - A JavaScript string is a [string] of code units; the code units
      modelled are those below 256, so the white space set and the case
      mapping are the restrictions of the ECMAScript ones to that range.
    - A JavaScript number is either [NaN] or an integer [Int z], and the
      arithmetic on [Int] is that of the integers.  This is the
      arithmetic of the source exactly as long as the magnitude of every
      number involved stays below 2^53: above that bound the source
      rounds to the nearest double ([parseInt] and the two products
      alike), writes numbers from 10^21 on in exponent notation, and
      overflows to Infinity, none of which [Int] does.  A theorem whose
      conclusion names the value of a number or its numeral therefore
      carries the bound as a hypothesis ([safe], [in_exact_range], or an
      explicit comparison with 2^53); the theorems without it speak of
      shapes, of branches taken or of rejections, which do not depend on
      the values.  Lemma [short_input_is_exact] shows that every input
      of at most 12 code units stays below the bound.  Negative zero is
      identified with zero (the source never distinguishes them:
      [-0 === 0], [String(-0)] is the string 0). *)

From Stdlib Require Import ZArith NArith Nnat Lia List Bool Ascii String.
Import ListNotations.

Local Open Scope string_scope.
Local Open Scope Z_scope.

(** ** JavaScript built-ins used by the source *)

Module JS.

(** White space as recognised by [trim], by the class [\s] and by
    [parseInt]: TAB, LF, VT, FF, CR, SPACE and NO-BREAK SPACE. *)
Definition is_white (c : ascii) : bool :=
  let n := N_of_ascii c in
  ((9 <=? n) && (n <=? 13) || (n =? 32) || (n =? 160))%N.

(** The decimal digits, i.e. the class [\d]. *)
Definition is_digit (c : ascii) : bool :=
  let n := N_of_ascii c in ((48 <=? n) && (n <=? 57))%N.

(** [toLowerCase] on one code unit: A-Z, and the accented capitals
    U+00C0-U+00DE except the multiplication sign U+00D7. *)
Definition lower_char (c : ascii) : ascii :=
  let n := N_of_ascii c in
  if ((65 <=? n) && (n <=? 90))%N then ascii_of_N (n + 32)
  else if ((192 <=? n) && (n <=? 222) && negb (n =? 215))%N
       then ascii_of_N (n + 32)
  else c.

Fixpoint toLowerCase (s : string) : string :=
  match s with
  | EmptyString => EmptyString
  | String c s' => String (lower_char c) (toLowerCase s')
  end.

Fixpoint trimStart (s : string) : string :=
  match s with
  | EmptyString => EmptyString
  | String c s' => if is_white c then trimStart s' else s
  end.

Fixpoint trimEnd (s : string) : string :=
  match s with
  | EmptyString => EmptyString
  | String c s' =>
      match trimEnd s' with
      | EmptyString => if is_white c then EmptyString else String c EmptyString
      | t => String c t
      end
  end.

Definition trim (s : string) : string := trimEnd (trimStart s).

(** [s.replace(/\s+/g, '')]: every maximal run of white space is replaced
    by the empty string, which deletes every white space code unit. *)
Fixpoint remove_white (s : string) : string :=
  match s with
  | EmptyString => EmptyString
  | String c s' =>
      if is_white c then remove_white s' else String c (remove_white s')
  end.

(** [s.includes(c)] and [s.indexOf(c) !== -1] for a one-character [c]. *)
Fixpoint includes (c : ascii) (s : string) : bool :=
  match s with
  | EmptyString => false
  | String x s' => Ascii.eqb x c || includes c s'
  end.

(** [s.split(sep)] for a one-character separator.  The result is never
    empty: the empty string splits into one empty part. *)
Fixpoint split (sep : ascii) (s : string) : list string :=
  match s with
  | EmptyString => [EmptyString]
  | String c s' =>
      if Ascii.eqb c sep then EmptyString :: split sep s'
      else match split sep s' with
           | p :: ps => String c p :: ps
           | [] => [String c EmptyString]
           end
  end.

(** [fill.repeat(n)] for a one-character [fill]. *)
Fixpoint repeat_char (fill : ascii) (n : nat) : string :=
  match n with
  | O => EmptyString
  | S n' => String fill (repeat_char fill n')
  end.

(** [s.padStart(target, fill)] for a one-character [fill]: a string that
    is already long enough is returned unchanged. *)
Definition padStart (target : nat) (fill : ascii) (s : string) : string :=
  if (target <=? String.length s)%nat then s
  else repeat_char fill (target - String.length s) ++ s.

(** *** Numbers *)

(** The numbers the source computes with: NaN, from [parseInt] on a text
    without a leading digit, and integers.  [Int z] stands for the double
    of value [z], which exists and is computed with exactly when the
    magnitude of [z] is below 2^53 (see [safe] below); the operations
    that follow are those of the source on that range. *)
Inductive number : Type :=
| NaN : number
| Int : Z -> number.

Definition mul (a b : number) : number :=
  match a, b with
  | Int x, Int y => Int (x * y)
  | _, _ => NaN
  end.

Definition add (a b : number) : number :=
  match a, b with
  | Int x, Int y => Int (x + y)
  | _, _ => NaN
  end.

(** The remainder operator [%]: the sign follows the dividend. *)
Definition rem (a b : number) : number :=
  match a, b with
  | Int x, Int y => if y =? 0 then NaN else Int (Z.rem x y)
  | _, _ => NaN
  end.

(** [a === b] and [a > b] on numbers: every comparison with NaN is false. *)
Definition strict_eq (a b : number) : bool :=
  match a, b with
  | Int x, Int y => x =? y
  | _, _ => false
  end.

Definition gt (a b : number) : bool :=
  match a, b with
  | Int x, Int y => y <? x
  | _, _ => false
  end.

(** ToBoolean on a number: zero and NaN are falsy. *)
Definition truthy (a : number) : bool :=
  match a with
  | Int x => negb (x =? 0)
  | NaN => false
  end.

(** *** Decimal digits *)

Definition digit_char (d : N) : ascii := ascii_of_N (48 + d).

Definition digit_value (c : ascii) : Z := Z.of_N (N_of_ascii c) - 48.

(** The digits of [n], most significant first, pushed in front of [acc].
    [fuel] bounds the number of divisions by ten. *)
Fixpoint decimal_aux (fuel : nat) (n : N) (acc : string) : string :=
  let acc' := String (digit_char (n mod 10)) acc in
  match fuel with
  | O => acc'
  | S fuel' =>
      if (n / 10 =? 0)%N then acc' else decimal_aux fuel' (n / 10) acc'
  end.

Definition decimal (n : N) : string :=
  decimal_aux (N.to_nat (N.log2 n)) n EmptyString.

(** [String(x)], also the conversion applied by [x + "..."]: the decimal
    numeral without leading zeros, with a minus sign in front of a
    negative integer.  The source writes it so for every integer of
    magnitude below 10^21, hence on the whole exact range. *)
Definition toString (a : number) : string :=
  match a with
  | NaN => "NaN"
  | Int z => if z <? 0 then String "-" (decimal (Z.to_N (- z)))
             else decimal (Z.to_N z)
  end.

(** *** parseInt(s, 10) *)

(** The longest prefix of decimal digits. *)
Fixpoint digit_prefix (s : string) : string :=
  match s with
  | EmptyString => EmptyString
  | String c s' => if is_digit c then String c (digit_prefix s') else EmptyString
  end.

(** The mathematical value of a digit string read after the value [acc]. *)
Fixpoint read_digits (acc : Z) (s : string) : Z :=
  match s with
  | EmptyString => acc
  | String c s' => read_digits (10 * acc + digit_value c) s'
  end.

(** Leading white space is skipped, one sign is accepted, then the longest
    digit prefix is read; with the radix given as 10 no [0x] prefix is
    recognised.  No digit at all gives NaN.  The result is the integer
    the digits denote, which is what the source returns when that
    integer is below 2^53 (a longer numeral is rounded there). *)
Definition parseInt (s : string) : number :=
  let s1 := trimStart s in
  let '(sign, s2) :=
    match s1 with
    | String c r =>
        if Ascii.eqb c "-" then (-1, r)
        else if Ascii.eqb c "+" then (1, r)
        else (1, s1)
    | EmptyString => (1, s1)
    end in
  let z := digit_prefix s2 in
  match z with
  | EmptyString => NaN
  | _ => Int (sign * read_digits 0 z)
  end.

End JS.

Import JS.

(** ** The regular expressions of the parser

    The four literals of [parseDuration] only use character sets, the
    greedy quantifiers [+] (on a character set) and [?], alternation,
    non-capturing and capturing groups, and the anchors [^] and [$].  The
    matcher below is the backtracking matcher of ECMAScript restricted to
    these constructs: alternatives are tried left to right, a quantifier
    first tries to take more, and the first complete match wins. *)

Module Regex.

Inductive cset : Type :=
| CDigit : cset                    (* \d *)
| CChar : ascii -> cset            (* a literal character *)
| COneOf : list ascii -> cset.     (* a class such as [:.] *)

Inductive regex : Type :=
| Empty : regex
| Char : cset -> regex
| Plus : cset -> regex             (* cs+ *)
| Seq : regex -> regex -> regex
| Alt : regex -> regex -> regex    (* r1|r2 *)
| Opt : regex -> regex             (* r? *)
| Group : nat -> regex -> regex.   (* the capturing group number i *)

(** A literal word is the sequence of its characters. *)
Fixpoint Word (w : string) : regex :=
  match w with
  | EmptyString => Empty
  | String c w' => Seq (Char (CChar c)) (Word w')
  end.

(** The groups captured so far, latest first. *)
Definition captures : Type := list (nat * string).

(** [match[i]]: the text of group [i], or [None] for undefined. *)
Fixpoint group (i : nat) (m : captures) : option string :=
  match m with
  | [] => None
  | (j, s) :: m' => if Nat.eqb i j then Some s else group i m'
  end.

(** Under the flag [i] two code units match when they are equal after
    case folding; for the letters used in the patterns this identifies
    exactly the letter and its capital. *)
Definition fold_case (c : ascii) : ascii :=
  let n := N_of_ascii c in
  if ((65 <=? n) && (n <=? 90))%N then ascii_of_N (n + 32) else c.

Definition cset_mem (icase : bool) (cs : cset) (c : ascii) : bool :=
  match cs with
  | CDigit => is_digit c
  | CChar x =>
      if icase then Ascii.eqb (fold_case c) (fold_case x) else Ascii.eqb c x
  | COneOf l =>
      existsb (fun x => if icase then Ascii.eqb (fold_case c) (fold_case x)
                        else Ascii.eqb c x) l
  end.

(** The text consumed between the input [s] and its suffix [rest]. *)
Definition consumed (s rest : string) : string :=
  substring 0 (String.length s - String.length rest) s.

Section Matcher.

Variable icase : bool.

(** One or more characters of [cs], the longest run first; [k] is
    the rest of the pattern. *)
Fixpoint match_plus {R : Type} (cs : cset) (s : string)
         (k : string -> option R) : option R :=
  match s with
  | EmptyString => None
  | String c s' =>
      if cset_mem icase cs c then
        match match_plus cs s' k with
        | Some r => Some r
        | None => k s'
        end
      else None
  end.

Fixpoint rmatch (r : regex) (s : string) (m : captures)
         (k : string -> captures -> option captures) : option captures :=
  match r with
  | Empty => k s m
  | Char cs =>
      match s with
      | String c s' => if cset_mem icase cs c then k s' m else None
      | EmptyString => None
      end
  | Plus cs => match_plus cs s (fun s' => k s' m)
  | Seq r1 r2 => rmatch r1 s m (fun s1 m1 => rmatch r2 s1 m1 k)
  | Alt r1 r2 =>
      match rmatch r1 s m k with
      | Some out => Some out
      | None => rmatch r2 s m k
      end
  | Opt r1 =>
      match rmatch r1 s m k with
      | Some out => Some out
      | None => k s m
      end
  | Group i r1 =>
      rmatch r1 s m (fun s' m' => k s' ((i, consumed s s') :: m'))
  end.

(** [s.match(/^r$/)]: the leading [^] pins the match to the start of
    [s] and the trailing [$] requires that nothing is left. *)
Definition full_match (r : regex) (s : string) : option captures :=
  rmatch r s []
    (fun rest m => match rest with EmptyString => Some m | _ => None end).

End Matcher.

Definition digits1 : regex := Plus CDigit.
Definition sep_opt : regex := Opt (Char (COneOf [":"%char; "."%char])).

(** [/^(\d+):(\d+):(\d+)$/] *)
Definition re_hms : regex :=
  Seq (Group 1 digits1)
    (Seq (Char (CChar ":"))
       (Seq (Group 2 digits1)
          (Seq (Char (CChar ":")) (Group 3 digits1)))).

(** [/^(\d+)(?:h|hours)?(?:[:.]?(\d+))?$/i] *)
Definition re_hours : regex :=
  Seq (Group 1 digits1)
    (Seq (Opt (Alt (Word "h") (Word "hours")))
       (Opt (Seq sep_opt (Group 2 digits1)))).

(** [/^(\d+)(?:m|min(?:utes)?)?$/i] *)
Definition re_minutes : regex :=
  Seq (Group 1 digits1)
    (Opt (Alt (Word "m") (Seq (Word "min") (Opt (Word "utes"))))).

(** [/^(\d+)(?:[:.]?(\d+))?$/] *)
Definition re_bare : regex :=
  Seq (Group 1 digits1) (Opt (Seq sep_opt (Group 2 digits1))).

End Regex.

Import Regex.

(** ** The duration and the parser *)

Record Duration : Type := mkDuration {
  hours : number;
  minutes : number;
  seconds : number
}.

(** The branch of the [if]/[else if] chain of [parseDuration] that an
    input takes (lines 86, 94, 103, 113, 121 and 129 of the source). *)
Inductive grammar : Type :=
| HMS        (* input.split(':').length === 3 *)
| HoursMark  (* input.includes('h') *)
| MinutesMark(* input.includes('m') *)
| ColonPair  (* input.indexOf(':') !== -1 *)
| DotPair    (* input.indexOf('.') !== -1 *)
| Bare.

Definition dispatch (input : string) : grammar :=
  if (List.length (split ":" input) =? 3)%nat then HMS
  else if includes "h" input then HoursMark
  else if includes "m" input then MinutesMark
  else if includes ":" input then ColonPair
  else if includes "." input then DotPair
  else Bare.

(** [parseInt(match[i], 10)]: an undefined group is first converted to
    the string undefined. *)
Definition group_text (i : nat) (m : captures) : string :=
  match group i m with
  | Some s => s
  | None => "undefined"
  end.

(** [if (match[2]) minutes = parseInt(match[2], 10)] over the initial
    value [minutes = 0]: an undefined or empty group is falsy. *)
Definition optional_minutes (m : captures) : number :=
  match group 2 m with
  | Some (String c s) => parseInt (String c s)
  | _ => Int 0
  end.

(** [hours * 3600 + minutes * 60], exact in the source as long as the
    sum stays below 2^53. *)
Definition total_seconds (h m : number) : number :=
  add (mul h (Int 3600)) (mul m (Int 60)).

(** Lines 87-93. *)
Definition parse_hms (input : string) : option Duration :=
  match full_match false re_hms input with
  | Some m =>
      Some (mkDuration (parseInt (group_text 1 m))
                       (parseInt (group_text 2 m))
                       (parseInt (group_text 3 m)))
  | None => None
  end.

(** Lines 96-102. *)
Definition parse_hours (input : string) : option Duration :=
  match full_match true re_hours input with
  | Some m =>
      let h := parseInt (group_text 1 m) in
      let mi := optional_minutes m in
      Some (mkDuration h mi (total_seconds h mi))
  | None => None
  end.

(** Lines 105-110. *)
Definition parse_minutes (input : string) : option Duration :=
  match full_match true re_minutes input with
  | Some m =>
      let mi := parseInt (group_text 1 m) in
      Some (mkDuration (Int 0) mi (mul mi (Int 60)))
  | None => None
  end.

(** Lines 114-120 and 122-128: the two parts around the separator, when
    there are exactly two. *)
Definition parse_pair (sep : ascii) (input : string) : option Duration :=
  match split sep input with
  | [p0; p1] =>
      let h := parseInt p0 in
      let mi := parseInt p1 in
      Some (mkDuration h mi (total_seconds h mi))
  | _ => None
  end.

(** Lines 130-136. *)
Definition parse_bare (input : string) : option Duration :=
  match full_match false re_bare input with
  | Some m =>
      let h := parseInt (group_text 1 m) in
      let mi := optional_minutes m in
      Some (mkDuration h mi (total_seconds h mi))
  | None => None
  end.

(** Line 82: [input.trim().toLowerCase().replace(/\s+/g, '')]. *)
Definition normalize (raw : string) : string :=
  remove_white (toLowerCase (trim raw)).

(** [parseDuration]; [None] is the source's [null]. *)
Definition parseDuration (raw : string) : option Duration :=
  let input := normalize raw in
  if String.eqb input EmptyString then None
  else match dispatch input with
       | HMS => parse_hms input
       | HoursMark => parse_hours input
       | MinutesMark => parse_minutes input
       | ColonPair => parse_pair ":" input
       | DotPair => parse_pair "." input
       | Bare => parse_bare input
       end.

(** ** The formatters *)

(** [formatSuggestion], lines 146-151. *)
Definition formatSuggestion (d : Duration) : string :=
  if strict_eq (hours d) (Int 0) && gt (minutes d) (Int 0)
  then toString (minutes d) ++ "m"
  else
    let s := toString (hours d) ++ "h" in
    if truthy (minutes d) then s ++ " " ++ toString (minutes d) ++ "m" else s.

(** [formatHMS], lines 157-162. *)
Definition formatHMS (d : Duration) : string :=
  let h := padStart 2 "0" (toString (hours d)) in
  let m := padStart 2 "0" (toString (minutes d)) in
  let s := padStart 2 "0" (toString (rem (seconds d) (Int 60))) in
  h ++ ":" ++ m ++ ":" ++ s.

(** ** Vocabulary of the specification *)

(** Every code unit of [s] satisfies [p]. *)
Fixpoint string_all (p : ascii -> bool) (s : string) : bool :=
  match s with
  | EmptyString => true
  | String c s' => p c && string_all p s'
  end.

(** A code unit that is neither white space nor changed by lowering. *)
Definition stable (c : ascii) : bool :=
  negb (is_white c) && Ascii.eqb (lower_char c) c.

(** [rest] does not continue a run of the character set [cs]. *)
Definition run_ends (icase : bool) (cs : cset) (rest : string) : Prop :=
  match rest with
  | EmptyString => True
  | String c _ => cset_mem icase cs c = false
  end.

(** Every capturing group of the pattern is a group of digits, [(\d+)]. *)
Fixpoint digit_groups_only (r : regex) : bool :=
  match r with
  | Empty | Char _ | Plus _ => true
  | Seq r1 r2 | Alt r1 r2 => digit_groups_only r1 && digit_groups_only r2
  | Opt r1 => digit_groups_only r1
  | Group _ r1 =>
      match r1 with
      | Plus CDigit => true
      | _ => false
      end
  end.

(** The numbers on which [Int] is exact in the source: NaN, and the
    integers of magnitude below 2^53. *)
Definition safe (x : number) : Prop :=
  match x with
  | NaN => True
  | Int z => Z.abs z < 2 ^ 53
  end.

(** A numeric group: one or more decimal digits and nothing else. *)
Definition digit_group (s : string) : Prop :=
  s <> EmptyString /\ string_all is_digit s = true.

(** The number a digit string denotes in positional notation. *)
Fixpoint decimal_value (s : string) : Z :=
  match s with
  | EmptyString => 0
  | String c s' =>
      digit_value c * 10 ^ Z.of_nat (String.length s') + decimal_value s'
  end.

(** [input] is digits:digits:digits with the groups [a], [b] and [c]. *)
Definition hms_shape (input a b c : string) : Prop :=
  digit_group a /\ digit_group b /\ digit_group c /\
  input = a ++ ":" ++ b ++ ":" ++ c.

(** [g] is the decimal numeral of [n] padded on the left with zeros to a
    width of at least [w]: only zeros are added, none beyond the width [w],
    and no digit of the numeral is dropped. *)
Definition zero_padded (w : nat) (n : Z) (g : string) : Prop :=
  exists k : nat,
    g = repeat_char "0" k ++ toString (Int n) /\
    String.length g = Nat.max w (String.length (toString (Int n))).

(** A duration as the data model has it: three non-negative integers. *)
Definition duration_of (h m s : Z) : Duration :=
  mkDuration (Int h) (Int m) (Int s).

(** The reading of the hh:mm:ss grammar under which the hours are the
    second numeric group and the minutes the first. *)
Definition hms_groups_swapped : Prop :=
  forall raw a b c,
    hms_shape (normalize raw) a b c ->
    parseDuration raw =
      Some (duration_of (decimal_value b) (decimal_value a) (decimal_value c)).

(** ** The texts a pattern accepts *)

(** The set of texts a pattern matches in full, read off its syntax. *)
Fixpoint lang (icase : bool) (r : regex) (s : string) : Prop :=
  match r with
  | Empty => s = EmptyString
  | Char cs => exists c, s = String c EmptyString /\ cset_mem icase cs c = true
  | Plus cs => s <> EmptyString /\ string_all (cset_mem icase cs) s = true
  | Seq r1 r2 => exists a b, s = a ++ b /\ lang icase r1 a /\ lang icase r2 b
  | Alt r1 r2 => lang icase r1 s \/ lang icase r2 s
  | Opt r1 => s = EmptyString \/ lang icase r1 s
  | Group _ r1 => lang icase r1 s
  end.

(** A code unit that is not a capital letter A-Z. *)
Definition not_capital (c : ascii) : bool := Ascii.eqb (fold_case c) c.

(** The spellings of the hour marker, of the minute marker and of the
    optional separator in the patterns of [parseDuration]. *)
Definition hour_marks : list string := ["h"; "hours"].
Definition minute_marks : list string := ["m"; "min"; "minutes"].
Definition separators : list string := [EmptyString; ":"; "."].

(** The end of a pattern anchored with [$]: nothing may be left. *)
Definition at_end (rest : string) (m : captures) : option captures :=
  match rest with
  | EmptyString => Some m
  | String _ _ => None
  end.

(** The optional minutes of the hours-marker and bare-digits patterns,
    [(?:[:.]?(\d+))?]. *)
Definition minutes_tail : regex := Opt (Seq sep_opt (Group 2 digits1)).

(** The number of occurrences of a code unit in a text. *)
Fixpoint count_char (c : ascii) (s : string) : nat :=
  match s with
  | EmptyString => O
  | String x s' => (if Ascii.eqb x c then 1 else 0) + count_char c s'
  end.

(** ** The configuration *)

(** The values an option can hold. *)
Inductive value : Type :=
| VUndefined : value
| VNull : value
| VBool : bool -> value
| VNum : number -> value
| VStr : string -> value.

(** An object as the list of its own properties, in insertion order; the
    first binding of a key is the one that counts. *)
Definition object : Type := list (string * value).

Fixpoint lookup (key : string) (o : object) : option value :=
  match o with
  | [] => None
  | (k, v) :: o' => if String.eqb key k then Some v else lookup key o'
  end.

(** [key in o], for keys that no prototype defines. *)
Definition has_key (key : string) (o : object) : bool :=
  match lookup key o with
  | Some _ => true
  | None => false
  end.

(** [o[key]]: a missing property reads as undefined. *)
Definition get (key : string) (o : object) : value :=
  match lookup key o with
  | Some v => v
  | None => VUndefined
  end.

(** ToBoolean and ToString on option values. *)
Definition value_truthy (v : value) : bool :=
  match v with
  | VUndefined | VNull => false
  | VBool b => b
  | VNum x => truthy x
  | VStr s => negb (String.eqb s EmptyString)
  end.

Definition value_to_string (v : value) : string :=
  match v with
  | VUndefined => "undefined"
  | VNull => "null"
  | VBool true => "true"
  | VBool false => "false"
  | VNum x => toString x
  | VStr s => s
  end.

(** [defaultConfig], lines 26-41. *)
Definition defaultConfig : object :=
  [ ("inputClass", VStr "timesuggestion");
    ("outputFormat", VStr "h:m:s");
    ("invalidMessage",
     VStr "Please enter a valid time (e.g. 3h15 or 01:30:00).");
    ("suggestionClass", VStr "dropdown-item");
    ("dropdownMenuClass", VStr "dropdown-menu");
    ("dropdownContainerClass", VStr "dropdown");
    ("autoParseOnLoad", VBool true) ].

(** [mergeConfig], lines 44-50.  [None] stands for a missing (falsy)
    argument: [userConfig && ...] then takes every default. *)
Definition mergeConfig (userConfig : option object) : object :=
  map (fun '(key, dflt) =>
         (key,
          match userConfig with
          | Some u => if has_key key u then get key u else dflt
          | None => dflt
          end))
      defaultConfig.

(** ** The bound field

    What [init] attaches to one input field, as far as the handlers of
    lines 169-235 read and write it.  The field is a text input: what a
    handler assigns to its value is what a later handler reads. *)

(** A suggestion button: its text, and the duration its click handler
    has captured. *)
Record suggestion : Type := mkSuggestion {
  text : string;
  captured : Duration
}.

Record field : Type := mkField {
  value_of : string;          (* inputField.value *)
  required : bool;            (* inputField.required *)
  is_invalid : bool;          (* "is-invalid" is in inputField.classList *)
  validity : string;          (* the custom validity message of inputField *)
  hidden : string;            (* hiddenInput.value *)
  items : list suggestion;    (* the children of suggestionsDiv *)
  shown : bool                (* "show" is in suggestionsDiv.classList *)
}.

Definition set_value (v : string) (st : field) : field :=
  mkField v (required st) (is_invalid st) (validity st) (hidden st)
          (items st) (shown st).

Definition set_flag (b : bool) (st : field) : field :=
  mkField (value_of st) (required st) b (validity st) (hidden st)
          (items st) (shown st).

Definition set_validity (msg : string) (st : field) : field :=
  mkField (value_of st) (required st) (is_invalid st) msg (hidden st)
          (items st) (shown st).

Definition set_hidden (v : string) (st : field) : field :=
  mkField (value_of st) (required st) (is_invalid st) (validity st) v
          (items st) (shown st).

Definition set_items (l : list suggestion) (st : field) : field :=
  mkField (value_of st) (required st) (is_invalid st) (validity st)
          (hidden st) l (shown st).

Definition set_shown (b : bool) (st : field) : field :=
  mkField (value_of st) (required st) (is_invalid st) (validity st)
          (hidden st) (items st) b.

(** [inputField.value.trim() === ""] *)
Definition blank (st : field) : bool :=
  String.eqb (trim (value_of st)) EmptyString.

(** [(config.outputFormat === "h:m:s") ? formatHMS(duration)
    : formatHMS(duration)] *)
Definition output (config : object) (d : Duration) : string :=
  match get "outputFormat" config with
  | VStr "h:m:s" => formatHMS d
  | _ => formatHMS d
  end.

(** [updateValidity], lines 169-184. *)
Definition updateValidity (config : object) (duration : option Duration)
           (st : field) : field :=
  if blank st && negb (required st) then
    set_validity EmptyString (set_hidden EmptyString (set_flag false st))
  else
    match duration with
    | Some _ => set_validity EmptyString (set_flag false st)
    | None =>
        set_validity (value_to_string (get "invalidMessage" config))
          (set_hidden EmptyString (set_flag true st))
    end.

(** The initial parse, lines 187-194. *)
Definition on_load (config : object) (st : field) : field :=
  if value_truthy (get "autoParseOnLoad" config) && negb (blank st) then
    let duration := parseDuration (value_of st) in
    let st1 := updateValidity config duration st in
    match duration with
    | Some d =>
        set_hidden (output config d) (set_value (formatSuggestion d) st1)
    | None => st1
    end
  else st.

(** The listener of the input event, lines 197-218. *)
Definition on_input (config : object) (st : field) : field :=
  let st0 := set_items [] st in
  let duration := parseDuration (value_of st0) in
  let st1 := updateValidity config duration st0 in
  match duration with
  | Some d =>
      let st2 := set_hidden (output config d) st1 in
      let item := mkSuggestion (formatSuggestion d) d in
      set_shown true (set_items (items st2 ++ [item]) st2)
  | None => set_shown false st1
  end.

(** The click listener of a suggestion button, lines 208-212. *)
Definition on_suggestion_click (config : object) (item : suggestion)
           (st : field) : field :=
  set_shown false
    (set_hidden (output config (captured item))
       (set_value (text item) st)).

(** The listener of the blur event, lines 221-228. *)
Definition on_blur (config : object) (st : field) : field :=
  let duration := parseDuration (value_of st) in
  let st1 := updateValidity config duration st in
  match duration with
  | Some d =>
      set_hidden (output config d) (set_value (formatSuggestion d) st1)
  | None => st1
  end.

(** The click listener of the document, lines 231-235, for a click
    outside the field and its dropdown. *)
Definition on_outside_click (st : field) : field := set_shown false st.

(** What can happen to a bound field: the user replaces the text (the
    input event), leaves the field, clicks the suggestion button number
    [i] of the dropdown, or clicks elsewhere in the document. *)
Inductive event : Type :=
| Typed : string -> event
| Blurred : event
| Clicked : nat -> event
| ClickedOutside : event.

Definition handle (config : object) (ev : event) (st : field) : field :=
  match ev with
  | Typed v => on_input config (set_value v st)
  | Blurred => on_blur config st
  | Clicked i =>
      match nth_error (items st) i with
      | Some item => on_suggestion_click config item st
      | None => st
      end
  | ClickedOutside => on_outside_click st
  end.

(** ** Class lists *)

(** ASCII white space, which separates the tokens of a class attribute:
    TAB, LF, FF, CR and SPACE. *)
Definition is_ascii_space (c : ascii) : bool :=
  let n := N_of_ascii c in
  ((n =? 9) || (n =? 10) || (n =? 12) || (n =? 13) || (n =? 32))%N.

Fixpoint split_spaces (s : string) : list string :=
  match s with
  | EmptyString => [EmptyString]
  | String c s' =>
      if is_ascii_space c then EmptyString :: split_spaces s'
      else match split_spaces s' with
           | p :: ps => String c p :: ps
           | [] => [String c EmptyString]
           end
  end.

(** The tokens of a class attribute, and [classList.contains]. *)
Definition class_tokens (s : string) : list string :=
  filter (fun t => negb (String.eqb t EmptyString)) (split_spaces s).

Definition has_class (token className : string) : bool :=
  existsb (String.eqb token) (class_tokens className).

(** Whether the dropdown is shown when [init] has built it: line 74 sets
    [suggestionsDiv.className = config.dropdownMenuClass], so it is when
    that option holds the class show. *)
Definition initially_shown (config : object) : bool :=
  has_class "show" (value_to_string (get "dropdownMenuClass" config)).

(** The field [init] has just bound (lines 58-75: a fresh hidden input
    and an empty dropdown with the configured class), not flagged by the
    markup, after the initial parse. *)
Definition bound (config : object) (v : string) (req : bool) : field :=
  on_load config
    (mkField v req false EmptyString EmptyString [] (initially_shown config)).

(** The field after a sequence of events, the first event first. *)
Definition run (config : object) (evs : list event) (st : field) : field :=
  fold_left (fun s ev => handle config ev s) evs st.

(** The message set on a field that is flagged. *)
Definition invalid_message (config : object) : string :=
  value_to_string (get "invalidMessage" config).


(** What holds of the suggestions of the dropdown at all times. *)
Definition suggestions_ok (st : field) : Prop :=
  (List.length (items st) <= 1)%nat /\
  (forall it, In it (items st) -> text it = formatSuggestion (captured it)).

(** What holds of a dropdown that was not shown to begin with. *)
Definition dropdown_ok (st : field) : Prop :=
  (List.length (items st) <= 1)%nat /\
  (forall it, In it (items st) -> text it = formatSuggestion (captured it)) /\
  (shown st = true -> items st <> []).

(** ** Numerals and the exact range *)

(** [s] is the decimal numeral of the natural number [n]: digits only,
    denoting [n], without a leading zero unless it is the single digit
    0. *)
Definition canonical_numeral (n : Z) (s : string) : Prop :=
  digit_group s /\ decimal_value s = n /\
  (s = "0" \/ exists c t, s = String c t /\ c <> "0"%char).

(** [s] is the decimal numeral of the integer [z], with a minus sign in
    front when [z] is negative. *)
Definition numeral (z : Z) (s : string) : Prop :=
  (0 <= z /\ canonical_numeral z s) \/
  (z < 0 /\ exists t, s = String "-" t /\ canonical_numeral (- z) t).

(** [g] is the decimal numeral of [n] with zeros in front of it up to a
    width of at least [w]: only zeros are added, none beyond the width
    [w], and no digit of the numeral is dropped. *)
Definition zero_padded_numeral (w : nat) (n : Z) (g : string) : Prop :=
  exists (k : nat) (t : string),
    canonical_numeral n t /\
    g = repeat_char "0" k ++ t /\
    String.length g = Nat.max w (String.length t).

(** The three numbers of a duration are in the range in which the source
    computes with exact integers (magnitude below 2^53). *)
Definition in_exact_range (d : Duration) : Prop :=
  safe (hours d) /\ safe (minutes d) /\ safe (seconds d).

(** ** Code units *)

Ltac by_cases_on_ascii c :=
  destruct c as [[|] [|] [|] [|] [|] [|] [|] [|]];
  try discriminate; try (vm_compute; intuition congruence).

Lemma digit_is_stable (c : ascii) :
  is_digit c = true ->
  is_white c = false /\ lower_char c = c /\ Ascii.eqb c ":" = false.
Proof. by_cases_on_ascii c. Qed.

Lemma digit_value_range (c : ascii) :
  is_digit c = true -> 0 <= digit_value c <= 9.
Proof.
  unfold is_digit, digit_value. intros H.
  apply andb_true_iff in H. destruct H as [H1 H2].
  apply N.leb_le in H1. apply N.leb_le in H2. lia.
Qed.

Lemma digit_char_spec (d : N) :
  (d < 10)%N ->
  is_digit (digit_char d) = true /\ digit_value (digit_char d) = Z.of_N d.
Proof.
  intros H.
  assert (E : (d = 0 \/ d = 1 \/ d = 2 \/ d = 3 \/ d = 4 \/
               d = 5 \/ d = 6 \/ d = 7 \/ d = 8 \/ d = 9)%N) by lia.
  repeat (destruct E as [E | E]; [subst d; split; reflexivity |]).
  subst d; split; reflexivity.
Qed.

(** ** Strings *)

Lemma append_empty_r (s : string) : s ++ EmptyString = s.
Proof. induction s as [|c s IH]; simpl; congruence. Qed.

Lemma append_assoc (s t u : string) : (s ++ t) ++ u = s ++ t ++ u.
Proof. induction s as [|c s IH]; simpl; congruence. Qed.

Lemma length_append (s t : string) :
  String.length (s ++ t) = (String.length s + String.length t)%nat.
Proof. induction s as [|c s IH]; simpl; congruence. Qed.

Lemma string_all_append (p : ascii -> bool) (s t : string) :
  string_all p (s ++ t) = string_all p s && string_all p t.
Proof.
  induction s as [|c s IH]; simpl; [reflexivity|].
  rewrite IH. apply andb_assoc.
Qed.

Lemma string_all_impl (p q : ascii -> bool) (s : string) :
  (forall c, p c = true -> q c = true) ->
  string_all p s = true -> string_all q s = true.
Proof.
  intros Hpq. induction s as [|c s IH]; simpl; [reflexivity|].
  intros H. apply andb_true_iff in H. destruct H as [Hc Hs].
  rewrite (Hpq c Hc). simpl. auto.
Qed.

Lemma substring_prefix (a rest : string) :
  substring 0 (String.length a) (a ++ rest) = a.
Proof.
  induction a as [|c a IH]; simpl.
  - destruct rest; reflexivity.
  - now rewrite IH.
Qed.

Lemma consumed_append (a rest : string) : consumed (a ++ rest) rest = a.
Proof.
  unfold consumed. rewrite length_append.
  replace (String.length a + String.length rest - String.length rest)%nat
    with (String.length a) by lia.
  apply substring_prefix.
Qed.

Lemma trimStart_stable (s : string) :
  string_all stable s = true -> trimStart s = s.
Proof.
  destruct s as [|c s]; simpl; [reflexivity|].
  intros H. apply andb_true_iff in H. destruct H as [Hc _].
  unfold stable in Hc. apply andb_true_iff in Hc. destruct Hc as [Hw _].
  apply negb_true_iff in Hw. now rewrite Hw.
Qed.

Lemma trimEnd_stable (s : string) :
  string_all stable s = true -> trimEnd s = s.
Proof.
  induction s as [|c s IH]; simpl; [reflexivity|].
  intros H. apply andb_true_iff in H. destruct H as [Hc Hs].
  rewrite (IH Hs).
  unfold stable in Hc. apply andb_true_iff in Hc. destruct Hc as [Hw _].
  apply negb_true_iff in Hw. rewrite Hw. destruct s; reflexivity.
Qed.

Lemma toLowerCase_stable (s : string) :
  string_all stable s = true -> toLowerCase s = s.
Proof.
  induction s as [|c s IH]; simpl; [reflexivity|].
  intros H. apply andb_true_iff in H. destruct H as [Hc Hs].
  rewrite (IH Hs).
  unfold stable in Hc. apply andb_true_iff in Hc. destruct Hc as [_ Hl].
  apply Ascii.eqb_eq in Hl. now rewrite Hl.
Qed.

Lemma remove_white_stable (s : string) :
  string_all stable s = true -> remove_white s = s.
Proof.
  induction s as [|c s IH]; simpl; [reflexivity|].
  intros H. apply andb_true_iff in H. destruct H as [Hc Hs].
  rewrite (IH Hs).
  unfold stable in Hc. apply andb_true_iff in Hc. destruct Hc as [Hw _].
  apply negb_true_iff in Hw. now rewrite Hw.
Qed.

Lemma normalize_stable (s : string) :
  string_all stable s = true -> normalize s = s.
Proof.
  intros H. unfold normalize, trim.
  rewrite (trimStart_stable s H), (trimEnd_stable s H),
    (toLowerCase_stable s H).
  now apply remove_white_stable.
Qed.

Lemma digit_stable (c : ascii) : is_digit c = true -> stable c = true.
Proof.
  intros H. destruct (digit_is_stable c H) as (Hw & Hl & _).
  unfold stable. rewrite Hw, Hl. simpl. apply Ascii.eqb_refl.
Qed.

(** ** Splitting *)

Lemma split_not_nil (sep : ascii) (s : string) : split sep s <> [].
Proof.
  induction s as [|c s IH]; simpl; [discriminate|].
  destruct (Ascii.eqb c sep); [discriminate|].
  destruct (split sep s); discriminate.
Qed.

(** A part that does not contain the separator is split off whole. *)
Lemma split_append (sep : ascii) (a rest : string) :
  includes sep a = false ->
  split sep (a ++ String sep rest) = a :: split sep rest.
Proof.
  induction a as [|c a IH]; simpl; intros H.
  - now rewrite Ascii.eqb_refl.
  - apply orb_false_iff in H. destruct H as [Hc Ha].
    rewrite Hc, (IH Ha). reflexivity.
Qed.

Lemma split_whole (sep : ascii) (a : string) :
  includes sep a = false -> split sep a = [a].
Proof.
  induction a as [|c a IH]; simpl; intros H; [reflexivity|].
  apply orb_false_iff in H. destruct H as [Hc Ha].
  rewrite Hc, (IH Ha). reflexivity.
Qed.

Lemma digits_have_no_colon (s : string) :
  string_all is_digit s = true -> includes ":" s = false.
Proof.
  induction s as [|c s IH]; simpl; [reflexivity|].
  intros H. apply andb_true_iff in H. destruct H as [Hc Hs].
  destruct (digit_is_stable c Hc) as (_ & _ & Hne).
  rewrite Hne. simpl. auto.
Qed.

Lemma split_hms (a b c : string) :
  string_all is_digit a = true ->
  string_all is_digit b = true ->
  string_all is_digit c = true ->
  split ":" (a ++ ":" ++ b ++ ":" ++ c) = [a; b; c].
Proof.
  intros Ha Hb Hc. simpl.
  rewrite split_append by now apply digits_have_no_colon.
  rewrite split_append by now apply digits_have_no_colon.
  rewrite split_whole by now apply digits_have_no_colon.
  reflexivity.
Qed.

(** ** The matcher on runs of a character set *)

Section MatchPlus.

Context {R : Type} (icase : bool) (cs : cset).

Lemma match_plus_stops (rest : string) (k : string -> option R) :
  run_ends icase cs rest -> match_plus icase cs rest k = None.
Proof.
  destruct rest as [|c rest]; simpl; [reflexivity|].
  intros H. now rewrite H.
Qed.

(** A maximal run is taken whole when the rest of the pattern accepts
    what follows it. *)
Lemma match_plus_greedy (a rest : string) (k : string -> option R)
      (out : R) :
  a <> EmptyString ->
  string_all (cset_mem icase cs) a = true ->
  run_ends icase cs rest ->
  k rest = Some out ->
  match_plus icase cs (a ++ rest) k = Some out.
Proof.
  intros Hne Hall Hend Hk.
  induction a as [|c a IH]; [congruence|].
  simpl in Hall. apply andb_true_iff in Hall. destruct Hall as [Hc Ha].
  simpl. rewrite Hc.
  destruct a as [|c' a'].
  - simpl. now rewrite (match_plus_stops rest k Hend).
  - rewrite IH; [reflexivity | discriminate | exact Ha].
Qed.

(** Whatever the matcher accepts starts with a non-empty run. *)
Lemma match_plus_sound (s : string) (k : string -> option R) (out : R) :
  match_plus icase cs s k = Some out ->
  exists a rest,
    s = a ++ rest /\ a <> EmptyString /\
    string_all (cset_mem icase cs) a = true /\ k rest = Some out.
Proof.
  induction s as [|c s IH]; simpl; [discriminate|].
  destruct (cset_mem icase cs c) eqn:Hc; [|discriminate].
  destruct (match_plus icase cs s k) as [r|] eqn:Hrec.
  - intros E. injection E as ->.
    destruct (IH eq_refl) as (a & rest & -> & Hne & Ha & Hk).
    exists (String c a), rest. simpl. rewrite Hc, Ha.
    repeat split; auto; discriminate.
  - intros Hk. exists (String c EmptyString), s. simpl. rewrite Hc.
    repeat split; auto; discriminate.
Qed.

End MatchPlus.

(** ** The pattern of the hh:mm:ss grammar *)

Lemma colon_ends_digits (rest : string) :
  run_ends false CDigit (String ":" rest).
Proof. reflexivity. Qed.

(** Completeness, with the groups the match reports. *)
Lemma re_hms_complete (input a b c : string) :
  hms_shape input a b c ->
  full_match false re_hms input = Some [(3, c); (2, b); (1, a)]%nat.
Proof.
  intros ((Ha0 & Ha) & (Hb0 & Hb) & (Hc0 & Hc) & ->).
  unfold full_match, re_hms, digits1. cbn [rmatch].
  apply match_plus_greedy;
    [exact Ha0 | exact Ha | exact (colon_ends_digits _) |].
  rewrite consumed_append. simpl.
  apply match_plus_greedy;
    [exact Hb0 | exact Hb | exact (colon_ends_digits _) |].
  rewrite consumed_append. simpl.
  rewrite <- (append_empty_r c).
  apply match_plus_greedy; [exact Hc0 | exact Hc | exact I |].
  now rewrite consumed_append, append_empty_r.
Qed.

(** Soundness: only digits:digits:digits is accepted. *)
Lemma re_hms_sound (input : string) (m : captures) :
  full_match false re_hms input = Some m ->
  exists a b c, hms_shape input a b c.
Proof.
  unfold full_match, re_hms, digits1. cbn [rmatch]. intros H.
  apply match_plus_sound in H.
  destruct H as (a & r1 & -> & Ha0 & Ha & H).
  destruct r1 as [|x r1]; [discriminate|].
  cbn [cset_mem] in H.
  destruct (Ascii.eqb x ":") eqn:Hx; [|discriminate].
  apply Ascii.eqb_eq in Hx. subst x.
  apply match_plus_sound in H.
  destruct H as (b & r2 & -> & Hb0 & Hb & H).
  destruct r2 as [|y r2]; [discriminate|].
  cbn [cset_mem] in H.
  destruct (Ascii.eqb y ":") eqn:Hy; [|discriminate].
  apply Ascii.eqb_eq in Hy. subst y.
  apply match_plus_sound in H.
  destruct H as (c & r3 & -> & Hc0 & Hc & H).
  destruct r3; [|discriminate].
  exists a, b, c. rewrite append_empty_r.
  repeat split; auto.
Qed.

(** ** Reading numerals *)

Lemma read_digits_value (s : string) (acc : Z) :
  read_digits acc s = acc * 10 ^ Z.of_nat (String.length s) + decimal_value s.
Proof.
  revert acc. induction s as [|c s IH]; intros acc; simpl String.length.
  - simpl. lia.
  - cbn [read_digits decimal_value]. rewrite IH.
    rewrite Nat2Z.inj_succ, Z.pow_succ_r by lia. ring.
Qed.

Lemma read_digits_from_zero (s : string) : read_digits 0 s = decimal_value s.
Proof. rewrite read_digits_value. lia. Qed.

Lemma decimal_value_bounds (s : string) :
  string_all is_digit s = true ->
  0 <= decimal_value s < 10 ^ Z.of_nat (String.length s).
Proof.
  induction s as [|c s IH]; intros H.
  - simpl. lia.
  - simpl in H. apply andb_true_iff in H. destruct H as [Hc Hs].
    specialize (IH Hs). pose proof (digit_value_range c Hc) as Hd.
    cbn [decimal_value String.length].
    rewrite Nat2Z.inj_succ, Z.pow_succ_r by lia. nia.
Qed.

Lemma digit_prefix_all (s : string) :
  string_all is_digit s = true -> digit_prefix s = s.
Proof.
  induction s as [|c s IH]; simpl; [reflexivity|].
  intros H. apply andb_true_iff in H. destruct H as [Hc Hs].
  now rewrite Hc, (IH Hs).
Qed.

(** In front of a digit [parseInt] skips nothing and reads no sign. *)
Lemma parseInt_starts_with_digit (c : ascii) (s : string) :
  is_digit c = true ->
  parseInt (String c s) =
    Int (1 * read_digits 0 (String c (digit_prefix s))).
Proof.
  destruct c as [[|] [|] [|] [|] [|] [|] [|] [|]];
    try discriminate; intros _; reflexivity.
Qed.

(** On a numeric group [parseInt] returns the number the group denotes. *)
Lemma parseInt_digit_group (s : string) :
  digit_group s -> parseInt s = Int (decimal_value s).
Proof.
  intros [Hne Hall]. destruct s as [|c s]; [congruence|].
  simpl in Hall. apply andb_true_iff in Hall. destruct Hall as [Hc Hs].
  rewrite (parseInt_starts_with_digit c s Hc), (digit_prefix_all s Hs).
  rewrite read_digits_from_zero. f_equal. lia.
Qed.

(** ** Writing numerals *)

Lemma decimal_aux_digits (fuel : nat) (n : N) (acc : string) :
  string_all is_digit acc = true ->
  string_all is_digit (decimal_aux fuel n acc) = true.
Proof.
  revert n acc. induction fuel as [|fuel IH]; intros n acc Hacc;
    assert (Hd : is_digit (digit_char (n mod 10)) = true)
      by (apply digit_char_spec, N.mod_lt; discriminate).
  - simpl. now rewrite Hd.
  - cbn [decimal_aux]. destruct (n / 10 =? 0)%N.
    + simpl. now rewrite Hd.
    + apply IH. simpl. now rewrite Hd.
Qed.

Lemma decimal_aux_not_empty (fuel : nat) (n : N) (acc : string) :
  (String.length acc < String.length (decimal_aux fuel n acc))%nat.
Proof.
  revert n acc. induction fuel as [|fuel IH]; intros n acc.
  - simpl. lia.
  - cbn [decimal_aux]. destruct (n / 10 =? 0)%N.
    + simpl. lia.
    + eapply Nat.lt_trans; [|apply IH]. simpl. lia.
Qed.

Lemma decimal_aux_value (fuel : nat) (n : N) (acc : string) :
  (n < 2 ^ N.of_nat (S fuel))%N ->
  read_digits 0 (decimal_aux fuel n acc) = read_digits (Z.of_N n) acc.
Proof.
  revert n acc. induction fuel as [|fuel IH]; intros n acc Hn;
    pose proof (N.mod_lt n 10 ltac:(discriminate)) as Hlt;
    destruct (digit_char_spec (n mod 10) Hlt) as [_ Hv];
    pose proof (N.div_mod n 10 ltac:(discriminate)) as Hdm.
  - change (2 ^ N.of_nat 1)%N with 2%N in Hn.
    cbn [decimal_aux read_digits]. rewrite Hv. f_equal.
    rewrite N.mod_small by lia. lia.
  - cbn [decimal_aux]. destruct (n / 10 =? 0)%N eqn:Hq.
    + apply N.eqb_eq in Hq. cbn [read_digits]. rewrite Hv. f_equal. lia.
    + apply N.eqb_neq in Hq. rewrite IH.
      * cbn [read_digits]. rewrite Hv. f_equal. lia.
      * rewrite Nat2N.inj_succ, N.pow_succ_r' in Hn.
        assert (n / 10 <= n / 2)%N.
        { apply N.div_le_compat_l. lia. }
        assert (n / 2 < 2 ^ N.of_nat (S fuel))%N.
        { apply N.Div0.div_lt_upper_bound. lia. }
        lia.
Qed.

Lemma decimal_is_digit_group (n : N) : digit_group (decimal n).
Proof.
  unfold decimal. split.
  - pose proof (decimal_aux_not_empty (N.to_nat (N.log2 n)) n EmptyString) as H.
    intros E. rewrite E in H. simpl in H. lia.
  - now apply decimal_aux_digits.
Qed.

Lemma decimal_value_decimal (n : N) : decimal_value (decimal n) = Z.of_N n.
Proof.
  rewrite <- read_digits_from_zero. unfold decimal.
  rewrite decimal_aux_value; [reflexivity|].
  rewrite Nat2N.inj_succ, N2Nat.id.
  destruct n as [|p]; [reflexivity|].
  apply N.log2_spec. lia.
Qed.

(** The numeral of a positive number does not start with a zero. *)
Lemma decimal_aux_head (fuel : nat) (n : N) (acc : string) :
  (n < 2 ^ N.of_nat (S fuel))%N -> n <> 0%N ->
  exists c t, decimal_aux fuel n acc = String c t /\ c <> "0"%char.
Proof.
  assert (Hd : forall d, (d < 10)%N -> d <> 0%N -> digit_char d <> "0"%char).
  { intros d Hlt Hne E. destruct (digit_char_spec d Hlt) as [_ Hv].
    rewrite E in Hv. change (digit_value "0") with 0 in Hv. lia. }
  revert n acc. induction fuel as [|fuel IH]; intros n acc Hn Hne.
  - change (2 ^ N.of_nat 1)%N with 2%N in Hn.
    cbn [decimal_aux]. eexists _, _. split; [reflexivity|].
    apply Hd; rewrite N.mod_small by lia; lia.
  - cbn [decimal_aux]. destruct (n / 10 =? 0)%N eqn:Hq.
    + apply N.eqb_eq in Hq. apply N.div_small_iff in Hq; [|discriminate].
      eexists _, _. split; [reflexivity|].
      apply Hd; rewrite N.mod_small by lia; lia.
    + apply N.eqb_neq in Hq. apply IH; [|exact Hq].
      rewrite Nat2N.inj_succ, N.pow_succ_r' in Hn.
      assert (n / 10 <= n / 2)%N by (apply N.div_le_compat_l; lia).
      assert (n / 2 < 2 ^ N.of_nat (S fuel))%N
        by (apply N.Div0.div_lt_upper_bound; lia).
      lia.
Qed.

Lemma decimal_no_leading_zero (n : N) :
  n <> 0%N -> exists c t, decimal n = String c t /\ c <> "0"%char.
Proof.
  intros Hne. unfold decimal. apply decimal_aux_head; [|exact Hne].
  rewrite Nat2N.inj_succ, N2Nat.id.
  destruct n as [|p]; [congruence|]. apply N.log2_spec. lia.
Qed.

Lemma toString_nonneg (n : Z) :
  0 <= n -> toString (Int n) = decimal (Z.to_N n).
Proof.
  intros H. unfold toString.
  destruct (n <? 0) eqn:E; [apply Z.ltb_lt in E; lia | reflexivity].
Qed.

Lemma toString_value (n : Z) :
  0 <= n ->
  digit_group (toString (Int n)) /\ decimal_value (toString (Int n)) = n.
Proof.
  intros H. rewrite toString_nonneg by exact H. split.
  - apply decimal_is_digit_group.
  - rewrite decimal_value_decimal. lia.
Qed.

(** ** Padding *)

Lemma repeat_zero_digits (k : nat) :
  string_all is_digit (repeat_char "0" k) = true.
Proof. induction k as [|k IH]; simpl; [reflexivity | exact IH]. Qed.

Lemma read_digits_leading_zeros (k : nat) (s : string) :
  read_digits 0 (repeat_char "0" k ++ s) = read_digits 0 s.
Proof. induction k as [|k IH]; simpl; [reflexivity | exact IH]. Qed.

(** What [padStart(2, '0')] makes of the numeral of a non-negative
    integer. *)
Lemma pad2_spec (n : Z) :
  0 <= n ->
  let g := padStart 2 "0" (toString (Int n)) in
  zero_padded 2 n g /\ digit_group g /\ (2 <= String.length g)%nat /\
  decimal_value g = n /\
  (99 < n -> g = toString (Int n) /\ (3 <= String.length g)%nat).
Proof.
  intros Hn g. subst g.
  destruct (toString_value n Hn) as [[Hne Hall] Hval].
  pose proof (decimal_value_bounds _ Hall) as Hb. rewrite Hval in Hb.
  set (s := toString (Int n)) in *.
  unfold padStart. destruct (2 <=? String.length s)%nat eqn:E.
  - apply Nat.leb_le in E.
    split; [|split; [|split; [|split]]]; auto.
    + exists 0%nat. split; [reflexivity|]. now rewrite Nat.max_r.
    + split; assumption.
    + intros Hbig. split; [reflexivity|].
      destruct (Nat.eq_dec (String.length s) 2) as [L|L]; [|lia].
      rewrite L in Hb. change (10 ^ Z.of_nat 2) with 100 in Hb. lia.
  - apply Nat.leb_gt in E.
    assert (L : String.length s = 1%nat).
    { destruct s as [|c [|c' s']]; simpl in *; [congruence | lia | lia]. }
    rewrite L in Hb. change (10 ^ Z.of_nat 1) with 10 in Hb.
    rewrite L. change (2 - 1)%nat with 1%nat.
    split; [|split; [|split; [|split]]].
    + exists 1%nat. split; [reflexivity|]. fold s.
      rewrite length_append, L. reflexivity.
    + split; [discriminate|].
      rewrite string_all_append, repeat_zero_digits, Hall. reflexivity.
    + rewrite length_append, L. simpl. lia.
    + rewrite <- read_digits_from_zero, read_digits_leading_zeros.
      now rewrite read_digits_from_zero.
    + lia.
Qed.

Lemma rem_60_nonneg (s : Z) :
  0 <= s -> rem (Int s) (Int 60) = Int (s mod 60) /\ 0 <= s mod 60 < 60.
Proof.
  intros H. split.
  - unfold rem. simpl. now rewrite Z.rem_mod_nonneg by lia.
  - apply Z.mod_pos_bound. lia.
Qed.

(** ** The hh:mm:ss branch *)

Lemma hms_shape_not_empty (input a b c : string) :
  hms_shape input a b c -> String.eqb input EmptyString = false.
Proof.
  intros ((Ha0 & _) & _ & _ & ->).
  destruct a as [|x a]; [congruence | reflexivity].
Qed.

Lemma hms_shape_three_parts (input a b c : string) :
  hms_shape input a b c -> split ":" input = [a; b; c].
Proof.
  intros ((_ & Ha) & (_ & Hb) & (_ & Hc) & ->). now apply split_hms.
Qed.

(** An input of the shape digits:digits:digits takes the first branch
    and yields its three groups, in the order written. *)
Lemma parse_hms_shape (raw a b c : string) :
  hms_shape (normalize raw) a b c ->
  dispatch (normalize raw) = HMS /\
  parseDuration raw =
    Some (duration_of (decimal_value a) (decimal_value b) (decimal_value c)).
Proof.
  intros H.
  assert (D : dispatch (normalize raw) = HMS).
  { unfold dispatch. now rewrite (hms_shape_three_parts _ _ _ _ H). }
  split; [exact D|].
  unfold parseDuration. cbv zeta.
  rewrite (hms_shape_not_empty _ _ _ _ H), D.
  unfold parse_hms. rewrite (re_hms_complete _ _ _ _ H).
  destruct H as (Ha & Hb & Hc & _).
  unfold group_text. cbn [group Nat.eqb].
  now rewrite !parseInt_digit_group.
Qed.

Lemma colon_stable (s t : string) :
  string_all stable s = true -> string_all stable t = true ->
  string_all stable (s ++ ":" ++ t) = true.
Proof.
  intros Hs Ht. rewrite string_all_append, Hs. simpl. exact Ht.
Qed.

Lemma digit_group_stable (s : string) :
  digit_group s -> string_all stable s = true.
Proof.
  intros [_ H]. eapply string_all_impl; [|exact H]. exact digit_stable.
Qed.

(** The seconds of every branch but the first are NaN or whole minutes. *)
Lemma total_seconds_cases (h m : number) :
  total_seconds h m = NaN \/ exists k, total_seconds h m = Int (60 * k).
Proof.
  destruct h as [|h], m as [|m]; unfold total_seconds, add, mul; auto.
  right. exists (h * 60 + m). f_equal. lia.
Qed.

(** On a short input (so that every number stays in the exact range,
    see [short_input_is_exact] below) the seconds of a duration parsed
    outside the hh:mm:ss branch are NaN or whole minutes. *)
Lemma seconds_nan_or_whole_minutes (raw : string) (d : Duration) :
  (String.length raw <= 12)%nat ->
  dispatch (normalize raw) <> HMS ->
  parseDuration raw = Some d ->
  seconds d = NaN \/ exists k, seconds d = Int (60 * k).
Proof.
  intros _. unfold parseDuration. cbv zeta.
  destruct (String.eqb (normalize raw) EmptyString); [discriminate|].
  intros Hg.
  destruct (dispatch (normalize raw)); [congruence | | | | |].
  - unfold parse_hours. destruct full_match; [|discriminate].
    intros E. injection E as <-. apply total_seconds_cases.
  - unfold parse_minutes. destruct full_match; [|discriminate].
    intros E. injection E as <-. cbn [seconds].
    destruct (parseInt _) as [|z]; unfold mul; auto.
    right. exists z. f_equal. lia.
  - unfold parse_pair. destruct split as [|p0 [|p1 [|p2 l]]]; try discriminate.
    intros E. injection E as <-. apply total_seconds_cases.
  - unfold parse_pair. destruct split as [|p0 [|p1 [|p2 l]]]; try discriminate.
    intros E. injection E as <-. apply total_seconds_cases.
  - unfold parse_bare. destruct full_match; [|discriminate].
    intros E. injection E as <-. apply total_seconds_cases.
Qed.

(** ** What a successful match captures *)

Lemma digit_groups_only_Word (w : string) : digit_groups_only (Word w) = true.
Proof. induction w as [|c w IH]; simpl; [reflexivity | exact IH]. Qed.

(** A match that succeeds hands the rest of the pattern a suffix of the
    input, and every group it has added or replaced meanwhile is a group
    of digits taken from the input. *)
Lemma rmatch_reaches_rest (icase : bool) (r : regex) :
  digit_groups_only r = true ->
  forall s m k out,
    rmatch icase r s m k = Some out ->
    exists s' m',
      k s' m' = Some out /\
      (String.length s' <= String.length s)%nat /\
      forall i,
        group i m' = group i m \/
        exists t, group i m' = Some t /\ digit_group t /\
                  (String.length t <= String.length s)%nat.
Proof.
  induction r as [|cs|cs|r1 IH1 r2 IH2|r1 IH1 r2 IH2|r1 IH1|j r1 _];
    intros Hr s m k out H; cbn [rmatch] in H.
  - exists s, m. auto.
  - destruct s as [|c s]; [discriminate|].
    destruct (cset_mem icase cs c); [|discriminate].
    exists s, m. simpl. auto.
  - apply match_plus_sound in H.
    destruct H as (a & rest & -> & _ & _ & Hk).
    exists rest, m. rewrite length_append. split; [exact Hk|].
    split; [lia | auto].
  - simpl in Hr. apply andb_true_iff in Hr. destruct Hr as [Hr1 Hr2].
    destruct (IH1 Hr1 _ _ _ _ H) as (s1 & m1 & H1 & L1 & G1).
    destruct (IH2 Hr2 _ _ _ _ H1) as (s2 & m2 & H2 & L2 & G2).
    exists s2, m2. split; [exact H2|]. split; [lia|].
    intros i. destruct (G2 i) as [E2 | (t & E2 & D2 & T2)].
    + rewrite E2. apply G1.
    + right. exists t. repeat split; try apply D2; auto. lia.
  - simpl in Hr. apply andb_true_iff in Hr. destruct Hr as [Hr1 Hr2].
    destruct (rmatch icase r1 s m k) as [o|] eqn:E1.
    + injection H as ->. now apply (IH1 Hr1 _ _ _ _ E1).
    + now apply (IH2 Hr2 _ _ _ _ H).
  - simpl in Hr.
    destruct (rmatch icase r1 s m k) as [o|] eqn:E1.
    + injection H as ->. now apply (IH1 Hr _ _ _ _ E1).
    + exists s, m. auto.
  - destruct r1 as [|cs|cs| | | |]; try discriminate.
    destruct cs; try discriminate.
    cbn [rmatch] in H. apply match_plus_sound in H.
    destruct H as (a & rest & -> & Ha0 & Ha & Hk).
    rewrite consumed_append in Hk.
    exists rest, ((j, a) :: m). rewrite length_append.
    split; [exact Hk|]. split; [lia|].
    intros i. cbn [group]. destruct (Nat.eqb i j); [|now left].
    right. exists a. repeat split; auto. lia.
Qed.

(** Every group reported by a full match is a group of digits no longer
    than the input. *)
Lemma full_match_groups (icase : bool) (r : regex) (s : string)
      (m : captures) :
  digit_groups_only r = true ->
  full_match icase r s = Some m ->
  forall i,
    group i m = None \/
    exists t, group i m = Some t /\ digit_group t /\
              (String.length t <= String.length s)%nat.
Proof.
  intros Hr H i. unfold full_match in H.
  destruct (rmatch_reaches_rest icase r Hr _ _ _ _ H)
    as (s' & m' & Hk & _ & G).
  destruct s'; [|discriminate]. injection Hk as <-. apply G.
Qed.

(** A pattern that starts with [(\d+)] always reports its first group. *)
Lemma full_match_leading_group (icase : bool) (r : regex) (s : string)
      (m : captures) :
  digit_groups_only r = true ->
  full_match icase (Seq (Group 1 digits1) r) s = Some m ->
  exists t, group 1 m = Some t /\ digit_group t /\
            (String.length t <= String.length s)%nat.
Proof.
  intros Hr H. unfold full_match, digits1 in H. cbn [rmatch] in H.
  apply match_plus_sound in H.
  destruct H as (a & rest & -> & Ha0 & Ha & H).
  rewrite consumed_append in H.
  destruct (rmatch_reaches_rest icase r Hr _ _ _ _ H)
    as (s' & m' & Hk & L & G).
  destruct s'; [|discriminate]. injection Hk as <-.
  rewrite length_append.
  destruct (G 1%nat) as [E | (t & E & D & T)].
  - exists a. rewrite E. repeat split; auto. lia.
  - exists t. repeat split; try apply D; auto. lia.
Qed.

Lemma re_hours_groups : digit_groups_only re_hours = true.
Proof. reflexivity. Qed.

Lemma re_minutes_groups : digit_groups_only re_minutes = true.
Proof. reflexivity. Qed.

Lemma re_bare_groups : digit_groups_only re_bare = true.
Proof. reflexivity. Qed.

(** ** The numbers read from the groups *)

Lemma group_text_value (i : nat) (m : captures) (t : string) :
  group i m = Some t -> digit_group t ->
  parseInt (group_text i m) = Int (decimal_value t).
Proof.
  intros E D. unfold group_text. rewrite E. now apply parseInt_digit_group.
Qed.

Lemma optional_minutes_value (icase : bool) (r : regex) (s : string)
      (m : captures) :
  digit_groups_only r = true ->
  full_match icase r s = Some m ->
  exists mi, optional_minutes m = Int mi /\
             0 <= mi < 10 ^ Z.of_nat (String.length s).
Proof.
  intros Hr H. unfold optional_minutes.
  destruct (full_match_groups icase r s m Hr H 2%nat)
    as [E | (t & E & D & T)]; rewrite E.
  - exists 0. split; [reflexivity|]. split; [lia|].
    apply Z.pow_pos_nonneg; lia.
  - destruct t as [|c t]; [now destruct D|].
    exists (decimal_value (String c t)).
    split; [now apply parseInt_digit_group|].
    pose proof (decimal_value_bounds _ (proj2 D)) as B.
    split; [lia|]. eapply Z.lt_le_trans; [apply B|].
    apply Z.pow_le_mono_r; lia.
Qed.

Lemma leading_group_value (icase : bool) (r : regex) (s : string)
      (m : captures) :
  digit_groups_only r = true ->
  full_match icase (Seq (Group 1 digits1) r) s = Some m ->
  exists h, parseInt (group_text 1 m) = Int h /\
            0 <= h < 10 ^ Z.of_nat (String.length s).
Proof.
  intros Hr H.
  destruct (full_match_leading_group icase r s m Hr H) as (t & E & D & T).
  exists (decimal_value t). split; [now apply group_text_value|].
  pose proof (decimal_value_bounds _ (proj2 D)) as B.
  split; [lia|]. eapply Z.lt_le_trans; [apply B|].
  apply Z.pow_le_mono_r; lia.
Qed.

(** ** The branches guarded by a pattern *)

Lemma whole_minutes_rem (h m : Z) :
  rem (Int (h * 3600 + m * 60)) (Int 60) = Int 0.
Proof.
  unfold rem. cbn [Z.eqb]. f_equal.
  replace (h * 3600 + m * 60) with ((h * 60 + m) * 60) by ring.
  apply Z.rem_mul. discriminate.
Qed.

(** In the hours-marker, minutes-marker and bare-digits branches, and in
    the exact range, the hours and minutes are non-negative integers and
    the seconds are the whole minutes they amount to. *)
Lemma pattern_branches_whole_minutes (raw : string) (d : Duration) :
  in_exact_range d ->
  parseDuration raw = Some d ->
  dispatch (normalize raw) = HoursMark \/
  dispatch (normalize raw) = MinutesMark \/
  dispatch (normalize raw) = Bare ->
  exists h m,
    0 <= h /\ 0 <= m /\
    d = duration_of h m (h * 3600 + m * 60) /\
    rem (seconds d) (Int 60) = Int 0.
Proof.
  intros _.
  unfold parseDuration. cbv zeta.
  destruct (String.eqb (normalize raw) EmptyString); [discriminate|].
  intros P [D | [D | D]]; rewrite D in P.
  - unfold parse_hours in P.
    destruct (full_match true re_hours (normalize raw)) as [c|] eqn:E;
      [|discriminate].
    injection P as <-.
    destruct (optional_minutes_value _ _ _ _ re_hours_groups E)
      as (m & -> & Hm).
    unfold re_hours in E. eapply leading_group_value in E; [|reflexivity].
    destruct E as (h & -> & Hh).
    exists h, m. repeat split; try lia. apply whole_minutes_rem.
  - unfold parse_minutes in P.
    destruct (full_match true re_minutes (normalize raw)) as [c|] eqn:E;
      [|discriminate].
    injection P as <-.
    unfold re_minutes in E. eapply leading_group_value in E; [|reflexivity].
    destruct E as (m & -> & Hm).
    exists 0, m. repeat split; try lia. apply (whole_minutes_rem 0 m).
  - unfold parse_bare in P.
    destruct (full_match false re_bare (normalize raw)) as [c|] eqn:E;
      [|discriminate].
    injection P as <-.
    destruct (optional_minutes_value _ _ _ _ re_bare_groups E)
      as (m & -> & Hm).
    unfold re_bare in E. eapply leading_group_value in E; [|reflexivity].
    destruct E as (h & -> & Hh).
    exists h, m. repeat split; try lia. apply whole_minutes_rem.
Qed.

(** ** Suggestions with a single unit *)

Lemma includes_append (c : ascii) (s t : string) :
  includes c (s ++ t) = includes c s || includes c t.
Proof.
  induction s as [|x s IH]; simpl; [reflexivity|].
  rewrite IH. apply orb_assoc.
Qed.

Lemma digits_exclude (c : ascii) (s : string) :
  is_digit c = false -> string_all is_digit s = true -> includes c s = false.
Proof.
  intros Hc. induction s as [|x s IH]; simpl; [reflexivity|].
  intros H. apply andb_true_iff in H. destruct H as [Hx Hs].
  rewrite (IH Hs), orb_false_r.
  destruct (Ascii.eqb x c) eqn:E; [|reflexivity].
  apply Ascii.eqb_eq in E. congruence.
Qed.

Lemma formatSuggestion_minutes_only (m s : Z) :
  0 < m -> formatSuggestion (duration_of 0 m s) = toString (Int m) ++ "m".
Proof.
  intros H. unfold formatSuggestion, duration_of.
  cbn [hours minutes strict_eq gt].
  apply Z.ltb_lt in H. now rewrite H.
Qed.

Lemma formatSuggestion_hours_only (h s : Z) :
  formatSuggestion (duration_of h 0 s) = toString (Int h) ++ "h".
Proof.
  unfold formatSuggestion, duration_of. cbn [hours minutes strict_eq gt].
  now rewrite andb_false_r.
Qed.

(** A numeral followed by one letter is left as it is by the
    normalisation and has a single colon part. *)
Lemma numeral_with_unit (n : string) (u : ascii) :
  digit_group n -> stable u = true -> Ascii.eqb u ":" = false ->
  normalize (n ++ String u EmptyString) = n ++ String u EmptyString /\
  String.eqb (n ++ String u EmptyString) EmptyString = false /\
  split ":" (n ++ String u EmptyString) = [n ++ String u EmptyString].
Proof.
  intros D Hu Hc. split; [|split].
  - apply normalize_stable. rewrite string_all_append.
    rewrite (digit_group_stable n D). simpl. now rewrite Hu.
  - destruct D as [D0 _]. destruct n; [congruence | reflexivity].
  - apply split_whole. rewrite includes_append.
    rewrite (digits_have_no_colon n (proj2 D)). simpl. now rewrite Hc.
Qed.

Lemma re_minutes_numeral_m (n : string) :
  digit_group n ->
  full_match true re_minutes (n ++ "m") = Some [(1%nat, n)].
Proof.
  intros [D0 D]. unfold full_match, re_minutes, digits1. cbn [rmatch].
  apply match_plus_greedy; [exact D0 | exact D | reflexivity |].
  rewrite consumed_append. reflexivity.
Qed.

Lemma re_hours_numeral_h (n : string) :
  digit_group n ->
  full_match true re_hours (n ++ "h") = Some [(1%nat, n)].
Proof.
  intros [D0 D]. unfold full_match, re_hours, digits1. cbn [rmatch].
  apply match_plus_greedy; [exact D0 | exact D | reflexivity |].
  rewrite consumed_append. reflexivity.
Qed.

(** In the exact range, the suggestion of a duration of non-negative
    integers parses back to the same hours and minutes whenever it names
    a single unit, that is when the hours or the minutes are 0. *)
Lemma suggestion_roundtrip_single_unit (h m s : Z) :
  0 <= h -> 0 <= m -> h = 0 \/ m = 0 ->
  h * 3600 + m * 60 < 2 ^ 53 ->
  parseDuration (formatSuggestion (duration_of h m s)) =
    Some (duration_of h m (h * 3600 + m * 60)).
Proof.
  intros Hh Hm Hz _.
  destruct (Z.eq_dec m 0) as [-> | Hm0].
  - rewrite formatSuggestion_hours_only.
    destruct (toString_value h Hh) as [D V].
    destruct (numeral_with_unit (toString (Int h)) "h" D eq_refl eq_refl)
      as (N & Ne & Sp).
    unfold parseDuration. cbv zeta. rewrite N, Ne.
    unfold dispatch. rewrite Sp. cbn [List.length Nat.eqb].
    rewrite includes_append. cbn [includes Ascii.eqb Bool.eqb].
    rewrite orb_true_r.
    unfold parse_hours. rewrite (re_hours_numeral_h _ D).
    unfold group_text, optional_minutes. cbn [group Nat.eqb].
    rewrite (parseInt_digit_group _ D), V. reflexivity.
  - assert (h = 0) by lia. subst h.
    rewrite formatSuggestion_minutes_only by lia.
    destruct (toString_value m Hm) as [D V].
    destruct (numeral_with_unit (toString (Int m)) "m" D eq_refl eq_refl)
      as (N & Ne & Sp).
    unfold parseDuration. cbv zeta. rewrite N, Ne.
    unfold dispatch. rewrite Sp. cbn [List.length Nat.eqb].
    rewrite !includes_append.
    rewrite (digits_exclude "h" _ eq_refl (proj2 D)).
    cbn [includes Ascii.eqb Bool.eqb orb].
    rewrite orb_true_r.
    unfold parse_minutes. rewrite (re_minutes_numeral_m _ D).
    unfold group_text. cbn [group Nat.eqb].
    rewrite (parseInt_digit_group _ D), V. reflexivity.
Qed.

(** ** Exactness of the integer model on short inputs *)

Lemma trimStart_length (s : string) :
  (String.length (trimStart s) <= String.length s)%nat.
Proof.
  induction s as [|c s IH]; simpl; [lia|].
  destruct (is_white c); simpl; lia.
Qed.

Lemma trimEnd_length (s : string) :
  (String.length (trimEnd s) <= String.length s)%nat.
Proof.
  induction s as [|c s IH]; simpl; [lia|].
  destruct (trimEnd s); [destruct (is_white c)|]; simpl in *; lia.
Qed.

Lemma toLowerCase_length (s : string) :
  String.length (toLowerCase s) = String.length s.
Proof. induction s as [|c s IH]; simpl; congruence. Qed.

Lemma remove_white_length (s : string) :
  (String.length (remove_white s) <= String.length s)%nat.
Proof.
  induction s as [|c s IH]; simpl; [lia|].
  destruct (is_white c); simpl; lia.
Qed.

Lemma normalize_length (raw : string) :
  (String.length (normalize raw) <= String.length raw)%nat.
Proof.
  unfold normalize, trim.
  pose proof (remove_white_length (toLowerCase (trimEnd (trimStart raw)))).
  rewrite toLowerCase_length in H.
  pose proof (trimEnd_length (trimStart raw)).
  pose proof (trimStart_length raw). lia.
Qed.

Lemma split_part_length (sep : ascii) (s p : string) :
  In p (split sep s) -> (String.length p <= String.length s)%nat.
Proof.
  revert p. induction s as [|c s IH]; intros p; simpl.
  - intros [<- | []]. simpl. lia.
  - destruct (Ascii.eqb c sep).
    + intros [<- | H]; [simpl; lia|]. specialize (IH p H). lia.
    + destruct (split sep s) as [|q qs] eqn:E.
      * intros [<- | []]. simpl. lia.
      * intros [<- | H].
        -- specialize (IH q (or_introl eq_refl)). simpl. lia.
        -- specialize (IH p (or_intror H)). lia.
Qed.

Lemma digit_prefix_digits (s : string) :
  string_all is_digit (digit_prefix s) = true /\
  (String.length (digit_prefix s) <= String.length s)%nat.
Proof.
  induction s as [|c s [IH1 IH2]]; simpl; [split; [reflexivity | lia]|].
  destruct (is_digit c) eqn:E; simpl; [|split; [reflexivity | lia]].
  rewrite E, IH1. split; [reflexivity | lia].
Qed.

(** What [parseInt] returns is NaN or an integer with no more decimal
    digits than the text has code units. *)
Lemma parseInt_magnitude (t : string) :
  match parseInt t with
  | NaN => True
  | Int z => Z.abs z < 10 ^ Z.of_nat (String.length t)
  end.
Proof.
  unfold parseInt.
  pose proof (trimStart_length t) as L1.
  set (s1 := trimStart t) in *.
  assert (B : forall sign s2,
             (sign = 1 \/ sign = -1) ->
             (String.length s2 <= String.length s1)%nat ->
             match (let z := digit_prefix s2 in
                    match z with
                    | EmptyString => NaN
                    | String _ _ => Int (sign * read_digits 0 z)
                    end) with
             | NaN => True
             | Int z => Z.abs z < 10 ^ Z.of_nat (String.length t)
             end).
  { intros sign s2 Hsign L2. cbv zeta.
    destruct (digit_prefix_digits s2) as [D L3].
    pose proof (decimal_value_bounds _ D) as V.
    destruct (digit_prefix s2) as [|c z] eqn:E; [exact I|].
    rewrite read_digits_from_zero.
    assert (10 ^ Z.of_nat (String.length (String c z))
            <= 10 ^ Z.of_nat (String.length t))
      by (apply Z.pow_le_mono_r; lia).
    destruct Hsign as [-> | ->]; lia. }
  destruct s1 as [|c r]; [apply B; auto|].
  destruct (Ascii.eqb c "-"); [apply B; simpl; auto|].
  destruct (Ascii.eqb c "+"); apply B; simpl; auto.
Qed.

Lemma parseInt_short (t : string) :
  (String.length t <= 12)%nat ->
  match parseInt t with
  | NaN => True
  | Int z => Z.abs z < 10 ^ 12
  end.
Proof.
  intros L. pose proof (parseInt_magnitude t) as H.
  destruct (parseInt t) as [|z]; [exact I|].
  eapply Z.lt_le_trans; [exact H|]. apply Z.pow_le_mono_r; lia.
Qed.

Lemma total_seconds_safe (h m : number) :
  match h with NaN => True | Int z => Z.abs z < 10 ^ 12 end ->
  match m with NaN => True | Int z => Z.abs z < 10 ^ 12 end ->
  safe h /\ safe m /\ safe (mul h (Int 3600)) /\ safe (mul m (Int 60)) /\
  safe (total_seconds h m).
Proof.
  change (10 ^ 12) with 1000000000000.
  destruct h as [|h], m as [|m]; unfold total_seconds, mul, add, safe;
    change (2 ^ 53) with 9007199254740992; intros Hh Hm;
    repeat split; lia.
Qed.

Lemma group_text_short (icase : bool) (r : regex) (s : string)
      (m : captures) (i : nat) :
  digit_groups_only r = true ->
  full_match icase r s = Some m ->
  (String.length s <= 12)%nat ->
  match parseInt (group_text i m) with
  | NaN => True
  | Int z => Z.abs z < 10 ^ 12
  end.
Proof.
  intros Hr H L. unfold group_text.
  destruct (full_match_groups icase r s m Hr H i)
    as [E | (t & E & _ & T)]; rewrite E.
  - exact I.
  - apply parseInt_short. lia.
Qed.

Lemma optional_minutes_short (icase : bool) (r : regex) (s : string)
      (m : captures) :
  digit_groups_only r = true ->
  full_match icase r s = Some m ->
  (String.length s <= 12)%nat ->
  match optional_minutes m with
  | NaN => True
  | Int z => Z.abs z < 10 ^ 12
  end.
Proof.
  intros Hr H L.
  destruct (optional_minutes_value icase r s m Hr H) as (mi & -> & B).
  assert (10 ^ Z.of_nat (String.length s) <= 10 ^ 12)
    by (apply Z.pow_le_mono_r; lia).
  lia.
Qed.

(** On an input of at most 12 code units every number that
    [parseDuration] computes, the two products included, is NaN or an
    integer of magnitude below 2^53: the range in which the arithmetic of
    the source is the integer arithmetic of the embedding. *)
Lemma short_input_is_exact (raw : string) (d : Duration) :
  (String.length raw <= 12)%nat ->
  parseDuration raw = Some d ->
  safe (hours d) /\ safe (minutes d) /\ safe (seconds d) /\
  safe (mul (hours d) (Int 3600)) /\ safe (mul (minutes d) (Int 60)).
Proof.
  intros L. pose proof (normalize_length raw) as LN.
  assert (L' : (String.length (normalize raw) <= 12)%nat) by lia.
  unfold parseDuration. cbv zeta.
  destruct (String.eqb (normalize raw) EmptyString); [discriminate|].
  destruct (dispatch (normalize raw)).
  - unfold parse_hms.
    destruct (full_match false re_hms (normalize raw)) as [c|] eqn:E;
      [|discriminate].
    intros P. injection P as <-. cbn [hours minutes seconds].
    pose proof (group_text_short false re_hms _ _ 1%nat eq_refl E L') as B1.
    pose proof (group_text_short false re_hms _ _ 2%nat eq_refl E L') as B2.
    pose proof (group_text_short false re_hms _ _ 3%nat eq_refl E L') as B3.
    destruct (total_seconds_safe _ _ B1 B2) as (S1 & S2 & S3 & S4 & _).
    destruct (total_seconds_safe _ _ B3 B3) as (S5 & _).
    auto.
  - unfold parse_hours.
    destruct (full_match true re_hours (normalize raw)) as [c|] eqn:E;
      [|discriminate].
    intros P. injection P as <-. cbn [hours minutes seconds].
    pose proof (group_text_short true re_hours _ _ 1%nat eq_refl E L') as B1.
    pose proof (optional_minutes_short true re_hours _ _ eq_refl E L') as B2.
    destruct (total_seconds_safe _ _ B1 B2) as (S1 & S2 & S3 & S4 & S5).
    auto.
  - unfold parse_minutes.
    destruct (full_match true re_minutes (normalize raw)) as [c|] eqn:E;
      [|discriminate].
    intros P. injection P as <-. cbn [hours minutes seconds].
    pose proof (group_text_short true re_minutes _ _ 1%nat eq_refl E L') as B1.
    destruct (total_seconds_safe (Int 0) _ ltac:(simpl; lia) B1)
      as (S1 & S2 & S3 & S4 & _).
    auto.
  - unfold parse_pair.
    destruct (split ":" (normalize raw)) as [|p0 [|p1 [|p2 l]]] eqn:E;
      try discriminate.
    intros P. injection P as <-. cbn [hours minutes seconds].
    assert (B0 : (String.length p0 <= 12)%nat).
    { pose proof (split_part_length ":" (normalize raw) p0) as H.
      rewrite E in H. specialize (H (or_introl eq_refl)). lia. }
    assert (B1 : (String.length p1 <= 12)%nat).
    { pose proof (split_part_length ":" (normalize raw) p1) as H.
      rewrite E in H. specialize (H (or_intror (or_introl eq_refl))). lia. }
    destruct (total_seconds_safe _ _ (parseInt_short _ B0)
                (parseInt_short _ B1)) as (S1 & S2 & S3 & S4 & S5).
    auto.
  - unfold parse_pair.
    destruct (split "." (normalize raw)) as [|p0 [|p1 [|p2 l]]] eqn:E;
      try discriminate.
    intros P. injection P as <-. cbn [hours minutes seconds].
    assert (B0 : (String.length p0 <= 12)%nat).
    { pose proof (split_part_length "." (normalize raw) p0) as H.
      rewrite E in H. specialize (H (or_introl eq_refl)). lia. }
    assert (B1 : (String.length p1 <= 12)%nat).
    { pose proof (split_part_length "." (normalize raw) p1) as H.
      rewrite E in H. specialize (H (or_intror (or_introl eq_refl))). lia. }
    destruct (total_seconds_safe _ _ (parseInt_short _ B0)
                (parseInt_short _ B1)) as (S1 & S2 & S3 & S4 & S5).
    auto.
  - unfold parse_bare.
    destruct (full_match false re_bare (normalize raw)) as [c|] eqn:E;
      [|discriminate].
    intros P. injection P as <-. cbn [hours minutes seconds].
    pose proof (group_text_short false re_bare _ _ 1%nat eq_refl E L') as B1.
    pose proof (optional_minutes_short false re_bare _ _ eq_refl E L') as B2.
    destruct (total_seconds_safe _ _ B1 B2) as (S1 & S2 & S3 & S4 & S5).
    auto.
Qed.

(** ** Numerals *)

Lemma decimal_canonical (n : N) : canonical_numeral (Z.of_N n) (decimal n).
Proof.
  split; [apply decimal_is_digit_group|].
  split; [apply decimal_value_decimal|].
  destruct n as [|p]; [now left|]. right.
  apply decimal_no_leading_zero. discriminate.
Qed.

(** The number-to-string conversion writes the decimal numeral. *)
Lemma toString_numeral (z : Z) : numeral z (toString (Int z)).
Proof.
  unfold numeral, toString. destruct (z <? 0) eqn:E.
  - apply Z.ltb_lt in E. right. split; [exact E|].
    exists (decimal (Z.to_N (- z))). split; [reflexivity|].
    pose proof (decimal_canonical (Z.to_N (- z))) as C.
    now rewrite Z2N.id in C by lia.
  - apply Z.ltb_ge in E. left. split; [exact E|].
    pose proof (decimal_canonical (Z.to_N z)) as C.
    now rewrite Z2N.id in C by lia.
Qed.

Lemma toString_canonical (n : Z) :
  0 <= n -> canonical_numeral n (toString (Int n)).
Proof.
  intros H. destruct (toString_numeral n) as [[_ C] | [Hneg _]];
    [exact C | lia].
Qed.

Lemma pad2_numeral (n : Z) :
  0 <= n ->
  zero_padded_numeral 2 n (padStart 2 "0" (toString (Int n))) /\
  (99 < n -> canonical_numeral n (padStart 2 "0" (toString (Int n)))).
Proof.
  intros Hn. pose proof (toString_canonical n Hn) as C.
  destruct (pad2_spec n Hn) as ((k & E & L) & _ & _ & _ & W).
  split.
  - exists k, (toString (Int n)). auto.
  - intros Hbig. destruct (W Hbig) as [-> _]. exact C.
Qed.

(** ** The claims of the specification *)

(** C1: [parseDuration] turns the text 01:30:00 into one hour, thirty
    minutes and zero seconds, and [formatHMS] writes that duration back as
    01:30:00. *)
Theorem parse_and_format_canonical_example :
  parseDuration "01:30:00" = Some (duration_of 1 30 0) /\
  formatHMS (duration_of 1 30 0) = "01:30:00".
Proof. split; vm_compute; reflexivity. Qed.

(** C2, as stated: the hours are not the second numeric group and the
    minutes are not the first.  On 01:30:00 the parser returns one hour
    and thirty minutes, where the swapped reading asks for thirty hours
    and one minute. *)
Lemma hms_groups_are_not_swapped : ~ hms_groups_swapped.
Proof.
  intros H.
  specialize (H "01:30:00" "01" "30" "00").
  assert (S : hms_shape (normalize "01:30:00") "01" "30" "00").
  { repeat split; try discriminate; reflexivity. }
  apply H in S. vm_compute in S. discriminate.
Qed.

(** C2, amended: on an input that, once normalised, is
    digits:digits:digits, with each group denoting an integer below 2^53
    (the integers the source reads exactly), [parseDuration] returns the
    first group as the hours, the second as the minutes and the third as
    the seconds, each with the value its digits denote: nothing is
    clamped to 0-59 and the seconds are not computed from the hours and
    minutes. *)
Theorem parse_hms_groups_in_order (raw a b c : string) :
  hms_shape (normalize raw) a b c ->
  decimal_value a < 2 ^ 53 ->
  decimal_value b < 2 ^ 53 ->
  decimal_value c < 2 ^ 53 ->
  parseDuration raw =
    Some (duration_of (decimal_value a) (decimal_value b) (decimal_value c)).
Proof. intros H _ _ _. now apply parse_hms_shape. Qed.

Lemma parse_hms_groups_in_order_witness :
  (hms_shape (normalize " 7:75:99") "7" "75" "99" /\
   decimal_value "7" < 2 ^ 53 /\ decimal_value "75" < 2 ^ 53 /\
   decimal_value "99" < 2 ^ 53) /\
  parseDuration " 7:75:99" = Some (duration_of 7 75 99).
Proof.
  assert (S : hms_shape (normalize " 7:75:99") "7" "75" "99").
  { repeat split; try discriminate; reflexivity. }
  split; [repeat split; try apply S; reflexivity|].
  exact (parse_hms_groups_in_order " 7:75:99" "7" "75" "99" S
           eq_refl eq_refl eq_refl).
Defined.

(** C3: the colon-pair branch is meant to accept two pure integers only;
    the code accepts any two parts.  The input 3:15x takes the colon-pair
    branch and is parsed as 3 hours 15 minutes, and 1:x yields a duration
    whose minutes and seconds are NaN; only a split into more than three
    parts is rejected there. *)
Theorem colon_pair_accepts_extra_characters :
  dispatch (normalize "3:15x") = ColonPair /\
  parseDuration "3:15x" = Some (duration_of 3 15 11700) /\
  dispatch (normalize "1:x") = ColonPair /\
  parseDuration "1:x" = Some (mkDuration (Int 1) NaN NaN) /\
  parseDuration "1:2:3:4" = None.
Proof. repeat split; vm_compute; reflexivity. Qed.

(** C4: outside the hh:mm:ss branch the seconds are meant to be whole
    minutes; on 1:x the colon-pair branch returns a duration whose
    seconds are NaN, and NaN % 60 is NaN, not 0.  On short inputs NaN
    is the only way the invariant fails
    ([seconds_nan_or_whole_minutes]), and in the exact range it cannot
    arise in the three branches guarded by a pattern
    ([pattern_branches_whole_minutes]). *)
Theorem colon_pair_seconds_not_a_number :
  dispatch (normalize "1:x") = ColonPair /\
  exists d,
    parseDuration "1:x" = Some d /\
    rem (seconds d) (Int 60) = NaN /\
    rem (seconds d) (Int 60) <> Int 0.
Proof.
  split; [reflexivity|].
  exists (mkDuration (Int 1) NaN NaN).
  repeat split; try (vm_compute; reflexivity). discriminate.
Qed.

(** C5: [parseDuration] turns 3h15 into 3 hours, 15 minutes and 11700
    seconds; [formatHMS] writes it as 03:15:00 and [formatSuggestion] as
    3h 15m. *)
Theorem parse_and_format_hours_marker_example :
  parseDuration "3h15" = Some (duration_of 3 15 11700) /\
  formatHMS (duration_of 3 15 11700) = "03:15:00" /\
  formatSuggestion (duration_of 3 15 11700) = "3h 15m".
Proof. repeat split; vm_compute; reflexivity. Qed.

(** C6: the suggestion of a parsed duration is meant to parse back to the
    same hours and minutes; the suggestion 3h 15m of the duration parsed
    from 3h15 is rejected by [parseDuration] (normalised to 3h15m, it
    takes the hours-marker branch, whose pattern has no place for the
    final m).  In the exact range, suggestions that name a single unit
    do parse back ([suggestion_roundtrip_single_unit]). *)
Theorem suggestion_with_minutes_is_rejected :
  parseDuration "3h15" = Some (duration_of 3 15 11700) /\
  formatSuggestion (duration_of 3 15 11700) = "3h 15m" /\
  normalize "3h 15m" = "3h15m" /\
  dispatch "3h15m" = HoursMark /\
  parseDuration "3h 15m" = None.
Proof. repeat split; vm_compute; reflexivity. Qed.

(** C7: an input that splits on the colon into exactly three parts and is
    not digits:digits:digits takes the hh:mm:ss branch and is rejected;
    no other branch is tried. *)
Theorem three_parts_without_shape_rejected (raw : string) :
  List.length (split ":" (normalize raw)) = 3%nat ->
  (forall a b c, ~ hms_shape (normalize raw) a b c) ->
  dispatch (normalize raw) = HMS /\ parseDuration raw = None.
Proof.
  intros H3 Hshape.
  assert (D : dispatch (normalize raw) = HMS).
  { unfold dispatch. now rewrite H3. }
  split; [exact D|].
  unfold parseDuration. cbv zeta.
  destruct (String.eqb (normalize raw) EmptyString); [reflexivity|].
  rewrite D. unfold parse_hms.
  destruct (full_match false re_hms (normalize raw)) as [m|] eqn:E;
    [|reflexivity].
  destruct (re_hms_sound _ _ E) as (a & b & c & S).
  now destruct (Hshape a b c).
Qed.

Lemma three_parts_without_shape_rejected_witness :
  List.length (split ":" (normalize "1:2:x")) = 3%nat /\
  (forall a b c, ~ hms_shape (normalize "1:2:x") a b c) /\
  dispatch (normalize "1:2:x") = HMS /\ parseDuration "1:2:x" = None.
Proof.
  assert (H3 : List.length (split ":" (normalize "1:2:x")) = 3%nat)
    by reflexivity.
  assert (Hs : forall a b c, ~ hms_shape (normalize "1:2:x") a b c).
  { intros a b c S. apply re_hms_complete in S.
    vm_compute in S. discriminate. }
  split; [exact H3|]. split; [exact Hs|].
  exact (three_parts_without_shape_rejected "1:2:x" H3 Hs).
Defined.

(** C8: for a duration whose hours and minutes are integers of magnitude
    below 2^53 [formatSuggestion] returns the decimal numeral of the
    minutes followed by m when the hours are 0 and the minutes positive;
    otherwise the decimal numeral of the hours followed by h, with a
    space, the numeral of the minutes and m appended exactly when the
    minutes are not 0; for 0 hours and 0 minutes the result is 0h. *)
Theorem formatSuggestion_cases (h m s : Z) :
  Z.abs h < 2 ^ 53 -> Z.abs m < 2 ^ 53 ->
  exists H M,
    numeral h H /\ numeral m M /\
    (h = 0 /\ 0 < m ->
     formatSuggestion (duration_of h m s) = M ++ "m") /\
    (~ (h = 0 /\ 0 < m) -> m <> 0 ->
     formatSuggestion (duration_of h m s) = H ++ "h" ++ " " ++ M ++ "m") /\
    (~ (h = 0 /\ 0 < m) -> m = 0 ->
     formatSuggestion (duration_of h m s) = H ++ "h") /\
    (h = 0 /\ m = 0 -> formatSuggestion (duration_of h m s) = "0h").
Proof.
  intros _ _. exists (toString (Int h)), (toString (Int m)).
  split; [apply toString_numeral|]. split; [apply toString_numeral|].
  unfold formatSuggestion, duration_of.
  cbn [hours minutes strict_eq gt truthy].
  repeat split.
  - intros [-> Hm]. apply Z.ltb_lt in Hm. now rewrite Hm.
  - intros Hno Hm.
    destruct (h =? 0) eqn:Eh; destruct (0 <? m) eqn:Em; cbn [andb];
      try (apply Z.eqb_eq in Eh; apply Z.ltb_lt in Em; tauto);
      apply Z.eqb_neq in Hm; rewrite Hm; cbn [negb];
      now rewrite append_assoc.
  - intros Hno ->. rewrite andb_false_r. reflexivity.
  - intros [-> ->]. reflexivity.
Qed.

Lemma formatSuggestion_cases_witness :
  (Z.abs 3 < 2 ^ 53 /\ Z.abs 15 < 2 ^ 53) /\
  exists H M,
    numeral 3 H /\ numeral 15 M /\
    (3 = 0 /\ 0 < 15 ->
     formatSuggestion (duration_of 3 15 11700) = M ++ "m") /\
    (~ (3 = 0 /\ 0 < 15) -> 15 <> 0 ->
     formatSuggestion (duration_of 3 15 11700) =
       H ++ "h" ++ " " ++ M ++ "m") /\
    (~ (3 = 0 /\ 0 < 15) -> 15 = 0 ->
     formatSuggestion (duration_of 3 15 11700) = H ++ "h") /\
    (3 = 0 /\ 15 = 0 -> formatSuggestion (duration_of 3 15 11700) = "0h").
Proof.
  split; [split; reflexivity|].
  apply (formatSuggestion_cases 3 15 11700); reflexivity.
Defined.

(** C9: for a duration of non-negative integers below 2^53 [formatHMS]
    returns HH:MM:SS, where HH, MM and SS are the decimal numerals of the
    hours, of the minutes and of the seconds modulo 60, each padded with
    zeros to a width of at least 2 (so each denotes the value of its
    field); a value above 99 keeps all its digits and gets no zero; the
    result splits on the colon into exactly these three groups of
    digits, each at least 2 wide. *)
Theorem formatHMS_three_padded_groups (h m s : Z) :
  0 <= h < 2 ^ 53 -> 0 <= m < 2 ^ 53 -> 0 <= s < 2 ^ 53 ->
  exists HH MM SS,
    formatHMS (duration_of h m s) = HH ++ ":" ++ MM ++ ":" ++ SS /\
    split ":" (formatHMS (duration_of h m s)) = [HH; MM; SS] /\
    (zero_padded_numeral 2 h HH /\ zero_padded_numeral 2 m MM /\
     zero_padded_numeral 2 (s mod 60) SS) /\
    (digit_group HH /\ digit_group MM /\ digit_group SS) /\
    (decimal_value HH = h /\ decimal_value MM = m /\
     decimal_value SS = s mod 60) /\
    (2 <= String.length HH /\ 2 <= String.length MM /\
     2 <= String.length SS)%nat /\
    (99 < h -> canonical_numeral h HH /\ (3 <= String.length HH)%nat) /\
    (99 < m -> canonical_numeral m MM /\ (3 <= String.length MM)%nat).
Proof.
  intros [Hh _] [Hm _] [Hs _].
  destruct (rem_60_nonneg s Hs) as [Hrem Hrange].
  destruct (pad2_spec h Hh) as (_ & Dh & Lh & Vh & Wh).
  destruct (pad2_spec m Hm) as (_ & Dm & Lm & Vm & Wm).
  destruct (pad2_spec (s mod 60) (proj1 Hrange)) as (_ & Ds & Ls & Vs & _).
  destruct (pad2_numeral h Hh) as [Ph Ch].
  destruct (pad2_numeral m Hm) as [Pm Cm].
  destruct (pad2_numeral (s mod 60) (proj1 Hrange)) as [Ps _].
  exists (padStart 2 "0" (toString (Int h))),
         (padStart 2 "0" (toString (Int m))),
         (padStart 2 "0" (toString (Int (s mod 60)))).
  assert (E : formatHMS (duration_of h m s) =
              padStart 2 "0" (toString (Int h)) ++ ":" ++
              padStart 2 "0" (toString (Int m)) ++ ":" ++
              padStart 2 "0" (toString (Int (s mod 60)))).
  { unfold formatHMS, duration_of. cbn [hours minutes seconds].
    now rewrite Hrem. }
  split; [exact E|]. split.
  - rewrite E. apply split_hms; [apply Dh | apply Dm | apply Ds].
  - split; [auto|]. split; [auto|]. split; [auto|]. split; [auto|].
    split; intros Hbig.
    + split; [now apply Ch | now apply Wh].
    + split; [now apply Cm | now apply Wm].
Qed.

Lemma formatHMS_three_padded_groups_witness :
  (0 <= 123 < 2 ^ 53 /\ 0 <= 5 < 2 ^ 53 /\ 0 <= 3725 < 2 ^ 53) /\
  exists HH MM SS,
    formatHMS (duration_of 123 5 3725) = HH ++ ":" ++ MM ++ ":" ++ SS /\
    split ":" (formatHMS (duration_of 123 5 3725)) = [HH; MM; SS] /\
    (zero_padded_numeral 2 123 HH /\ zero_padded_numeral 2 5 MM /\
     zero_padded_numeral 2 (3725 mod 60) SS) /\
    (digit_group HH /\ digit_group MM /\ digit_group SS) /\
    (decimal_value HH = 123 /\ decimal_value MM = 5 /\
     decimal_value SS = 3725 mod 60) /\
    (2 <= String.length HH /\ 2 <= String.length MM /\
     2 <= String.length SS)%nat /\
    (99 < 123 -> canonical_numeral 123 HH /\ (3 <= String.length HH)%nat) /\
    (99 < 5 -> canonical_numeral 5 MM /\ (3 <= String.length MM)%nat).
Proof.
  split; [lia|].
  apply (formatHMS_three_padded_groups 123 5 3725); lia.
Defined.

(** C10: for a duration of non-negative integers below 2^53 the text
    written by [formatHMS] is parsed by the hh:mm:ss branch of
    [parseDuration] into the same hours and minutes and the seconds
    modulo 60. *)
Theorem parse_formatHMS_roundtrip (h m s : Z) :
  0 <= h < 2 ^ 53 -> 0 <= m < 2 ^ 53 -> 0 <= s < 2 ^ 53 ->
  dispatch (normalize (formatHMS (duration_of h m s))) = HMS /\
  parseDuration (formatHMS (duration_of h m s)) =
    Some (duration_of h m (s mod 60)).
Proof.
  intros [Hh _] [Hm _] [Hs _].
  destruct (rem_60_nonneg s Hs) as [Hrem Hrange].
  destruct (pad2_spec h Hh) as (_ & Dh & _ & Vh & _).
  destruct (pad2_spec m Hm) as (_ & Dm & _ & Vm & _).
  destruct (pad2_spec (s mod 60) (proj1 Hrange)) as (_ & Ds & _ & Vs & _).
  set (HH := padStart 2 "0" (toString (Int h))) in *.
  set (MM := padStart 2 "0" (toString (Int m))) in *.
  set (SS := padStart 2 "0" (toString (Int (s mod 60)))) in *.
  assert (E : formatHMS (duration_of h m s) = HH ++ ":" ++ MM ++ ":" ++ SS).
  { unfold formatHMS, duration_of. cbn [hours minutes seconds].
    now rewrite Hrem. }
  assert (N : normalize (formatHMS (duration_of h m s)) =
              HH ++ ":" ++ MM ++ ":" ++ SS).
  { rewrite E. apply normalize_stable.
    apply colon_stable; [now apply digit_group_stable|].
    apply colon_stable; now apply digit_group_stable. }
  assert (S : hms_shape (normalize (formatHMS (duration_of h m s)))
                HH MM SS).
  { rewrite N. repeat split; solve [apply Dh | apply Dm | apply Ds]. }
  destruct (parse_hms_shape _ _ _ _ S) as [D P].
  split; [exact D|]. rewrite P, Vh, Vm, Vs. reflexivity.
Qed.

Lemma parse_formatHMS_roundtrip_witness :
  (0 <= 123 < 2 ^ 53 /\ 0 <= 5 < 2 ^ 53 /\ 0 <= 3725 < 2 ^ 53) /\
  dispatch (normalize (formatHMS (duration_of 123 5 3725))) = HMS /\
  parseDuration (formatHMS (duration_of 123 5 3725)) =
    Some (duration_of 123 5 (3725 mod 60)).
Proof.
  split; [lia|].
  apply (parse_formatHMS_roundtrip 123 5 3725); lia.
Defined.

(** * Further properties of the source *)

(** ** The matcher accepts exactly the texts of the pattern *)

Lemma match_plus_complete {R : Type} (icase : bool) (cs : cset)
      (a rest : string) (k : string -> option R) :
  a <> EmptyString ->
  string_all (cset_mem icase cs) a = true ->
  k rest <> None ->
  match_plus icase cs (a ++ rest) k <> None.
Proof.
  intros Hne Hall Hk. induction a as [|c a IH]; [congruence|].
  simpl in Hall. apply andb_true_iff in Hall. destruct Hall as [Hc Ha].
  simpl. rewrite Hc. destruct a as [|c' a'].
  - simpl. destruct (match_plus icase cs rest k); [discriminate | exact Hk].
  - specialize (IH ltac:(discriminate) Ha).
    destruct (match_plus icase cs (String c' a' ++ rest) k);
      [discriminate | congruence].
Qed.

(** A successful match splits the input into a text of the pattern and
    the rest, which the rest of the pattern accepts. *)
Lemma rmatch_sound (icase : bool) (r : regex) :
  forall s m k out,
    rmatch icase r s m k = Some out ->
    exists a rest m',
      s = a ++ rest /\ lang icase r a /\ k rest m' = Some out.
Proof.
  induction r as [|cs|cs|r1 IH1 r2 IH2|r1 IH1 r2 IH2|r1 IH1|j r1 IH1];
    intros s m k out H; cbn [rmatch] in H.
  - exists EmptyString, s, m. simpl. auto.
  - destruct s as [|c s]; [discriminate|].
    destruct (cset_mem icase cs c) eqn:E; [|discriminate].
    exists (String c EmptyString), s, m. simpl. repeat split; auto.
    exists c. auto.
  - apply match_plus_sound in H.
    destruct H as (a & rest & -> & Ha0 & Ha & Hk).
    exists a, rest, m. simpl. auto.
  - destruct (IH1 _ _ _ _ H) as (a1 & s1 & m1 & -> & L1 & H1).
    destruct (IH2 _ _ _ _ H1) as (a2 & s2 & m2 & -> & L2 & H2).
    exists (a1 ++ a2), s2, m2. rewrite append_assoc.
    split; [reflexivity|]. split; [|exact H2].
    exists a1, a2. auto.
  - destruct (rmatch icase r1 s m k) as [o|] eqn:E1.
    + injection H as ->.
      destruct (IH1 _ _ _ _ E1) as (a & rest & m' & -> & L & Hk).
      exists a, rest, m'. simpl. auto.
    + destruct (IH2 _ _ _ _ H) as (a & rest & m' & -> & L & Hk).
      exists a, rest, m'. simpl. auto.
  - destruct (rmatch icase r1 s m k) as [o|] eqn:E1.
    + injection H as ->.
      destruct (IH1 _ _ _ _ E1) as (a & rest & m' & -> & L & Hk).
      exists a, rest, m'. simpl. auto.
    + exists EmptyString, s, m. simpl. auto.
  - destruct (IH1 _ _ _ _ H) as (a & rest & m' & -> & L & Hk).
    exists a, rest, ((j, consumed (a ++ rest) rest) :: m'). simpl. auto.
Qed.

(** Backtracking loses no match: a text of the pattern followed by a
    rest that the rest of the pattern accepts is matched. *)
Lemma rmatch_complete (icase : bool) (r : regex) :
  forall a rest m k,
    lang icase r a ->
    (forall m', k rest m' <> None) ->
    rmatch icase r (a ++ rest) m k <> None.
Proof.
  induction r as [|cs|cs|r1 IH1 r2 IH2|r1 IH1 r2 IH2|r1 IH1|j r1 IH1];
    intros a rest m k L Hk; cbn [rmatch]; cbn [lang] in L.
  - subst a. apply Hk.
  - destruct L as (c & -> & Hc). simpl. rewrite Hc. apply Hk.
  - destruct L as [Ha0 Ha]. apply match_plus_complete; auto.
  - destruct L as (a1 & a2 & -> & L1 & L2). rewrite append_assoc.
    apply IH1; [exact L1|]. intros m'. now apply IH2.
  - destruct L as [L | L].
    + specialize (IH1 a rest m k L Hk).
      destruct (rmatch icase r1 (a ++ rest) m k); [discriminate | congruence].
    + destruct (rmatch icase r1 (a ++ rest) m k); [discriminate|].
      now apply IH2.
  - destruct L as [-> | L].
    + simpl. destruct (rmatch icase r1 rest m k); [discriminate | apply Hk].
    + specialize (IH1 a rest m k L Hk).
      destruct (rmatch icase r1 (a ++ rest) m k); [discriminate | congruence].
  - apply IH1; [exact L|]. intros m'. apply Hk.
Qed.

Lemma full_match_lang (icase : bool) (r : regex) (s : string) :
  full_match icase r s <> None <-> lang icase r s.
Proof.
  unfold full_match. split.
  - intros H.
    destruct (rmatch icase r s [] _) as [out|] eqn:E; [|congruence].
    destruct (rmatch_sound icase r _ _ _ _ E) as (a & rest & m' & -> & L & Hk).
    destruct rest; [|discriminate]. now rewrite append_empty_r.
  - intros L. rewrite <- (append_empty_r s).
    apply rmatch_complete; [exact L|]. discriminate.
Qed.

(** ** The normalisation of the input *)

Lemma lower_char_facts (c : ascii) :
  is_white (lower_char c) = is_white c /\
  lower_char (lower_char c) = lower_char c /\
  not_capital (lower_char c) = true.
Proof.
  destruct c as [[|] [|] [|] [|] [|] [|] [|] [|]];
    vm_compute; repeat split; reflexivity.
Qed.

Lemma remove_white_append (s t : string) :
  remove_white (s ++ t) = remove_white s ++ remove_white t.
Proof.
  induction s as [|c s IH]; simpl; [reflexivity|].
  destruct (is_white c); simpl; now rewrite IH.
Qed.

Lemma remove_white_blank (w : string) :
  string_all is_white w = true -> remove_white w = EmptyString.
Proof.
  induction w as [|c w IH]; simpl; [reflexivity|].
  intros H. apply andb_true_iff in H. destruct H as [Hc Hw].
  rewrite Hc. auto.
Qed.

Lemma remove_white_trimStart (s : string) :
  remove_white (trimStart s) = remove_white s.
Proof.
  induction s as [|c s IH]; simpl; [reflexivity|].
  destruct (is_white c) eqn:E; [exact IH|]. simpl. now rewrite E.
Qed.

Lemma remove_white_trimEnd (s : string) :
  remove_white (trimEnd s) = remove_white s.
Proof.
  induction s as [|c s IH]; simpl; [reflexivity|].
  destruct (trimEnd s) as [|c' t] eqn:E.
  - simpl in IH. simpl. rewrite <- IH.
    destruct (is_white c) eqn:W; simpl; [reflexivity | now rewrite W].
  - rewrite <- IH. reflexivity.
Qed.

Lemma remove_white_toLowerCase (s : string) :
  remove_white (toLowerCase s) = toLowerCase (remove_white s).
Proof.
  induction s as [|c s IH]; simpl; [reflexivity|].
  destruct (lower_char_facts c) as (-> & _ & _).
  destruct (is_white c); simpl; now rewrite IH.
Qed.

(** Trimming is subsumed by the removal of all white space. *)
Lemma normalize_without_trim (raw : string) :
  normalize raw = toLowerCase (remove_white raw).
Proof.
  unfold normalize, trim.
  now rewrite remove_white_toLowerCase, remove_white_trimEnd,
    remove_white_trimStart.
Qed.

Lemma toLowerCase_idempotent (s : string) :
  toLowerCase (toLowerCase s) = toLowerCase s.
Proof.
  induction s as [|c s IH]; simpl; [reflexivity|].
  destruct (lower_char_facts c) as (_ & -> & _). now rewrite IH.
Qed.

Lemma toLowerCase_no_capital (s : string) :
  string_all not_capital (toLowerCase s) = true.
Proof.
  induction s as [|c s IH]; simpl; [reflexivity|].
  destruct (lower_char_facts c) as (_ & _ & ->). exact IH.
Qed.

Lemma normalize_no_capital (raw : string) :
  string_all not_capital (normalize raw) = true.
Proof. rewrite normalize_without_trim. apply toLowerCase_no_capital. Qed.

(** X1: white space is ignored wherever it stands: a run of white space
    inserted anywhere in the text does not change what [parseDuration]
    returns. *)
Theorem parseDuration_ignores_white_space (a w b : string) :
  string_all is_white w = true ->
  parseDuration (a ++ w ++ b) = parseDuration (a ++ b).
Proof.
  intros Hw.
  assert (E : normalize (a ++ w ++ b) = normalize (a ++ b)).
  { rewrite !normalize_without_trim, !remove_white_append.
    now rewrite (remove_white_blank w Hw). }
  unfold parseDuration. now rewrite E.
Qed.

Lemma parseDuration_ignores_white_space_witness :
  string_all is_white "  " = true /\
  parseDuration ("3h" ++ "  " ++ "15") = parseDuration ("3h" ++ "15").
Proof.
  split; [reflexivity|].
  exact (parseDuration_ignores_white_space "3h" "  " "15" eq_refl).
Defined.

(** X2: the case of letters is ignored: two texts with the same
    lower-case form get the same result from [parseDuration]. *)
Theorem parseDuration_ignores_case (raw1 raw2 : string) :
  toLowerCase raw1 = toLowerCase raw2 ->
  parseDuration raw1 = parseDuration raw2.
Proof.
  intros H.
  assert (E : normalize raw1 = normalize raw2).
  { rewrite !normalize_without_trim, <- !remove_white_toLowerCase.
    now rewrite H. }
  unfold parseDuration. now rewrite E.
Qed.

Lemma parseDuration_ignores_case_witness :
  toLowerCase "3H15" = toLowerCase "3h15" /\
  parseDuration "3H15" = parseDuration "3h15".
Proof.
  split; [reflexivity|].
  exact (parseDuration_ignores_case "3H15" "3h15" eq_refl).
Defined.

(** X3: a text made of white space only, the empty text included, is
    rejected. *)
Theorem parseDuration_rejects_blank (raw : string) :
  string_all is_white raw = true -> parseDuration raw = None.
Proof.
  intros H. unfold parseDuration. cbv zeta.
  rewrite normalize_without_trim, (remove_white_blank raw H). reflexivity.
Qed.

Lemma parseDuration_rejects_blank_witness :
  string_all is_white "   " = true /\ parseDuration "   " = None.
Proof.
  split; [reflexivity|].
  exact (parseDuration_rejects_blank "   " eq_refl).
Defined.

(** ** Counting separators *)

Lemma split_length (sep : ascii) (s : string) :
  List.length (split sep s) = S (count_char sep s).
Proof.
  induction s as [|c s IH]; simpl; [reflexivity|].
  destruct (Ascii.eqb c sep); simpl; [now rewrite IH|].
  destruct (split sep s) as [|p ps]; simpl in *; [discriminate | exact IH].
Qed.

Lemma count_char_append (c : ascii) (s t : string) :
  count_char c (s ++ t) = (count_char c s + count_char c t)%nat.
Proof.
  induction s as [|x s IH]; simpl; [reflexivity|]. rewrite IH. lia.
Qed.

Lemma count_char_includes (c : ascii) (s : string) :
  includes c s = false <-> count_char c s = O.
Proof.
  induction s as [|x s IH]; simpl; [tauto|].
  destruct (Ascii.eqb x c); simpl; [split; discriminate | exact IH].
Qed.

Lemma digits_count (c : ascii) (s : string) :
  is_digit c = false -> string_all is_digit s = true -> count_char c s = O.
Proof.
  intros Hc Hs. apply count_char_includes. now apply digits_exclude.
Qed.

(** ** The pieces of the patterns *)

Lemma full_match_at_end (icase : bool) (r : regex) (s : string) :
  full_match icase r s = rmatch icase r s [] at_end.
Proof. reflexivity. Qed.

Lemma separator_member (icase : bool) (c : ascii) :
  cset_mem icase (COneOf [":"%char; "."%char]) c = true ->
  c = ":"%char \/ c = "."%char.
Proof.
  destruct icase; destruct c as [[|] [|] [|] [|] [|] [|] [|] [|]];
    vm_compute; intros H; try discriminate; auto.
Qed.

Lemma digit_not_separator (icase : bool) (c : ascii) :
  is_digit c = true ->
  cset_mem icase (COneOf [":"%char; "."%char]) c = false.
Proof.
  destruct icase; destruct c as [[|] [|] [|] [|] [|] [|] [|] [|]];
    vm_compute; intros H; try discriminate; reflexivity.
Qed.

(** The steps of the matcher, one construct at a time. *)
Lemma rmatch_Seq (icase : bool) (r1 r2 : regex) (s : string) (m : captures)
      (k : string -> captures -> option captures) :
  rmatch icase (Seq r1 r2) s m k =
    rmatch icase r1 s m (fun s1 m1 => rmatch icase r2 s1 m1 k).
Proof. reflexivity. Qed.

Lemma rmatch_Opt_some (icase : bool) (r : regex) (s : string) (m : captures)
      (k : string -> captures -> option captures) (out : captures) :
  rmatch icase r s m k = Some out -> rmatch icase (Opt r) s m k = Some out.
Proof. intros H. cbn [rmatch]. now rewrite H. Qed.

Lemma rmatch_Opt_none (icase : bool) (r : regex) (s : string) (m : captures)
      (k : string -> captures -> option captures) :
  rmatch icase r s m k = None -> rmatch icase (Opt r) s m k = k s m.
Proof. intros H. cbn [rmatch]. now rewrite H. Qed.

Lemma rmatch_Alt_some (icase : bool) (r1 r2 : regex) (s : string)
      (m : captures) (k : string -> captures -> option captures)
      (out : captures) :
  rmatch icase r1 s m k = Some out ->
  rmatch icase (Alt r1 r2) s m k = Some out.
Proof. intros H. cbn [rmatch]. now rewrite H. Qed.

Lemma rmatch_Alt_none (icase : bool) (r1 r2 : regex) (s : string)
      (m : captures) (k : string -> captures -> option captures) :
  rmatch icase r1 s m k = None ->
  rmatch icase (Alt r1 r2) s m k = rmatch icase r2 s m k.
Proof. intros H. cbn [rmatch]. now rewrite H. Qed.

Lemma rmatch_Char_hit (icase : bool) (cs : cset) (c : ascii) (s : string)
      (m : captures) (k : string -> captures -> option captures) :
  cset_mem icase cs c = true ->
  rmatch icase (Char cs) (String c s) m k = k s m.
Proof. intros H. cbn [rmatch]. now rewrite H. Qed.

Lemma rmatch_Char_miss (icase : bool) (cs : cset) (c : ascii) (s : string)
      (m : captures) (k : string -> captures -> option captures) :
  cset_mem icase cs c = false ->
  rmatch icase (Char cs) (String c s) m k = None.
Proof. intros H. cbn [rmatch]. now rewrite H. Qed.

(** A literal word in front of the text is consumed. *)
Lemma rmatch_Word (w rest : string) (m : captures)
      (k : string -> captures -> option captures) :
  rmatch true (Word w) (w ++ rest) m k = k rest m.
Proof.
  induction w as [|c w IH]; [reflexivity|].
  cbn [Word append]. rewrite rmatch_Seq, rmatch_Char_hit.
  - apply IH.
  - cbn [cset_mem]. apply Ascii.eqb_refl.
Qed.

(** A group of digits up to the end of the text is captured whole. *)
Lemma group_to_the_end (icase : bool) (i : nat) (b : string)
      (m : captures) :
  digit_group b ->
  rmatch icase (Group i digits1) b m at_end = Some ((i, b) :: m).
Proof.
  intros [Hb0 Hb]. unfold digits1. cbn [rmatch].
  rewrite <- (append_empty_r b) at 1.
  apply match_plus_greedy; [exact Hb0 | exact Hb | exact I |].
  rewrite <- (append_empty_r b) at 1. now rewrite consumed_append.
Qed.

(** The optional minutes: absent at the end of the text, and otherwise
    an optional separator and a group of digits up to the end. *)
Lemma minutes_tail_absent (icase : bool) (m : captures) :
  rmatch icase minutes_tail EmptyString m at_end = Some m.
Proof. destruct icase; reflexivity. Qed.

Lemma minutes_tail_present (icase : bool) (sep b : string) (m : captures) :
  In sep separators -> digit_group b ->
  rmatch icase minutes_tail (sep ++ b) m at_end = Some ((2%nat, b) :: m).
Proof.
  intros Hsep D. pose proof (group_to_the_end icase 2 b m D) as G.
  unfold minutes_tail. apply rmatch_Opt_some. rewrite rmatch_Seq.
  unfold sep_opt.
  destruct Hsep as [<- | [<- | [<- | []]]]; cbn [append].
  - destruct b as [|c b]; [now destruct D|].
    rewrite rmatch_Opt_none; [exact G|].
    apply rmatch_Char_miss, digit_not_separator.
    destruct D as [_ D]. simpl in D. apply andb_true_iff in D. apply D.
  - apply rmatch_Opt_some.
    rewrite rmatch_Char_hit by (destruct icase; reflexivity). exact G.
  - apply rmatch_Opt_some.
    rewrite rmatch_Char_hit by (destruct icase; reflexivity). exact G.
Qed.

(** A group of digits followed by something else is captured whole. *)
Lemma group_run (icase : bool) (i : nat) (a rest : string) (m : captures)
      (k : string -> captures -> option captures) (out : captures) :
  digit_group a ->
  run_ends icase CDigit rest ->
  k rest ((i, a) :: m) = Some out ->
  rmatch icase (Group i digits1) (a ++ rest) m k = Some out.
Proof.
  intros [Ha0 Ha] Hend Hk. unfold digits1. cbn [rmatch].
  apply match_plus_greedy; [exact Ha0 | exact Ha | exact Hend |].
  now rewrite consumed_append.
Qed.

Lemma hours_mark_step (mark x : string) (m out : captures) :
  In mark hour_marks ->
  rmatch true minutes_tail x m at_end = Some out ->
  rmatch true (Seq (Opt (Alt (Word "h") (Word "hours"))) minutes_tail)
    (mark ++ x) m at_end = Some out.
Proof.
  intros Hmark H. rewrite rmatch_Seq. apply rmatch_Opt_some.
  destruct Hmark as [<- | [<- | []]].
  - apply rmatch_Alt_some. now rewrite rmatch_Word.
  - rewrite rmatch_Alt_none.
    + now rewrite rmatch_Word.
    + change ("hours" ++ x) with ("h" ++ ("ours" ++ x)).
      rewrite rmatch_Word. reflexivity.
Qed.

Lemma mark_ends_digits (mark x : string) :
  In mark hour_marks \/ In mark minute_marks ->
  run_ends true CDigit (mark ++ x).
Proof.
  intros [H | H]; simpl in H; intuition (subst; reflexivity).
Qed.

(** The groups the three patterns report on the texts they are written
    for. *)
Lemma re_hours_with_minutes (a mark sep b : string) :
  digit_group a -> In mark hour_marks -> In sep separators ->
  digit_group b ->
  full_match true re_hours (a ++ mark ++ sep ++ b) =
    Some [(2%nat, b); (1%nat, a)].
Proof.
  intros Da Hmark Hsep Db. rewrite full_match_at_end.
  change re_hours
    with (Seq (Group 1 digits1)
            (Seq (Opt (Alt (Word "h") (Word "hours"))) minutes_tail)).
  rewrite rmatch_Seq.
  apply group_run; [exact Da | apply mark_ends_digits; auto |].
  apply hours_mark_step; [exact Hmark|].
  now apply minutes_tail_present.
Qed.

Lemma re_hours_without_minutes (a mark : string) :
  digit_group a -> In mark hour_marks ->
  full_match true re_hours (a ++ mark) = Some [(1%nat, a)].
Proof.
  intros Da Hmark. rewrite full_match_at_end.
  change re_hours
    with (Seq (Group 1 digits1)
            (Seq (Opt (Alt (Word "h") (Word "hours"))) minutes_tail)).
  rewrite rmatch_Seq. rewrite <- (append_empty_r mark).
  apply group_run; [exact Da | apply mark_ends_digits; auto |].
  apply hours_mark_step; [exact Hmark|].
  apply minutes_tail_absent.
Qed.

Lemma re_minutes_with_mark (a mark : string) :
  digit_group a -> In mark minute_marks ->
  full_match true re_minutes (a ++ mark) = Some [(1%nat, a)].
Proof.
  intros Da Hmark. rewrite full_match_at_end. unfold re_minutes.
  rewrite rmatch_Seq. rewrite <- (append_empty_r mark).
  apply group_run; [exact Da | apply mark_ends_digits; auto |].
  destruct Hmark as [<- | [<- | [<- | []]]]; reflexivity.
Qed.

Lemma re_bare_digits (a : string) :
  digit_group a -> full_match false re_bare a = Some [(1%nat, a)].
Proof.
  intros Da. rewrite full_match_at_end.
  change re_bare with (Seq (Group 1 digits1) minutes_tail).
  rewrite rmatch_Seq. rewrite <- (append_empty_r a) at 1.
  apply group_run; [exact Da | exact I |].
  apply minutes_tail_absent.
Qed.

(** ** The texts of the three patterns *)

Lemma lang_Word (w s : string) :
  lang true (Word w) s ->
  string_all not_capital s = true ->
  string_all not_capital w = true ->
  s = w.
Proof.
  revert s. induction w as [|c w IH]; intros s L Hs Hw; cbn [Word lang] in L.
  - exact L.
  - destruct L as (a & b & -> & (x & -> & Hx) & Lb).
    simpl in Hs, Hw. apply andb_true_iff in Hs. apply andb_true_iff in Hw.
    destruct Hs as [Hxc Hb], Hw as [Hcc Hw].
    cbn [cset_mem] in Hx. unfold not_capital in Hxc, Hcc.
    apply Ascii.eqb_eq in Hx, Hxc, Hcc.
    simpl. f_equal; [congruence|]. now apply IH.
Qed.

Lemma lang_minutes_tail (icase : bool) (y : string) :
  lang icase minutes_tail y ->
  y = EmptyString \/
  exists sep b, In sep separators /\ digit_group b /\ y = sep ++ b.
Proof.
  unfold minutes_tail, sep_opt, digits1. cbn [lang].
  intros [-> | (p & q & -> & Hp & Hq)]; [now left|]. right.
  destruct Hp as [-> | (c & -> & Hc)].
  - exists EmptyString, q. simpl. auto.
  - apply separator_member in Hc. destruct Hc as [-> | ->].
    + exists ":", q. simpl. auto.
    + exists ".", q. simpl. auto.
Qed.

Lemma not_capital_append (s t : string) :
  string_all not_capital (s ++ t) = true ->
  string_all not_capital s = true /\ string_all not_capital t = true.
Proof. rewrite string_all_append. apply andb_true_iff. Qed.

Lemma lang_re_hours (s : string) :
  lang true re_hours s ->
  string_all not_capital s = true ->
  exists a x y,
    s = a ++ x ++ y /\ digit_group a /\
    (x = EmptyString \/ In x hour_marks) /\
    (y = EmptyString \/
     exists sep b, In sep separators /\ digit_group b /\ y = sep ++ b).
Proof.
  intros L Hs.
  change re_hours
    with (Seq (Group 1 digits1)
            (Seq (Opt (Alt (Word "h") (Word "hours"))) minutes_tail)) in L.
  cbn [lang] in L.
  destruct L as (a & r & -> & Da & x & y & -> & Hx & Hy).
  exists a, x, y. split; [reflexivity|]. split; [exact Da|].
  split; [|exact (lang_minutes_tail true y Hy)].
  apply not_capital_append in Hs. destruct Hs as [_ Hs].
  apply not_capital_append in Hs. destruct Hs as [Hxc _].
  destruct Hx as [-> | [Hx | Hx]]; [now left | right | right].
  - rewrite (lang_Word "h" x Hx Hxc eq_refl). simpl. auto.
  - rewrite (lang_Word "hours" x Hx Hxc eq_refl). simpl. auto.
Qed.

Lemma lang_re_minutes (s : string) :
  lang true re_minutes s ->
  string_all not_capital s = true ->
  exists a x,
    s = a ++ x /\ digit_group a /\ (x = EmptyString \/ In x minute_marks).
Proof.
  intros L Hs. unfold re_minutes in L. cbn [lang] in L.
  destruct L as (a & x & -> & Da & Hx).
  exists a, x. split; [reflexivity|]. split; [exact Da|].
  apply not_capital_append in Hs. destruct Hs as [_ Hxc].
  destruct Hx as [-> | [Hx | (p & q & -> & Hp & Hq)]]; [now left | right | right].
  - rewrite (lang_Word "m" x Hx Hxc eq_refl). simpl. auto.
  - apply not_capital_append in Hxc. destruct Hxc as [Hpc Hqc].
    rewrite (lang_Word "min" p Hp Hpc eq_refl).
    destruct Hq as [-> | Hq]; [simpl; auto|].
    rewrite (lang_Word "utes" q Hq Hqc eq_refl). simpl. auto.
Qed.

Lemma lang_re_bare (s : string) :
  lang false re_bare s ->
  exists a y,
    s = a ++ y /\ digit_group a /\
    (y = EmptyString \/
     exists sep b, In sep separators /\ digit_group b /\ y = sep ++ b).
Proof.
  intros L. change re_bare with (Seq (Group 1 digits1) minutes_tail) in L.
  cbn [lang] in L. destruct L as (a & y & -> & Da & Hy).
  exists a, y. split; [reflexivity|]. split; [exact Da|].
  exact (lang_minutes_tail false y Hy).
Qed.

(** ** The branch an input takes *)

Lemma dispatch_by_count (s : string) :
  dispatch s =
    if (count_char ":" s =? 2)%nat then HMS
    else if includes "h" s then HoursMark
    else if includes "m" s then MinutesMark
    else if includes ":" s then ColonPair
    else if includes "." s then DotPair
    else Bare.
Proof. unfold dispatch. now rewrite split_length. Qed.

Lemma digit_group_not_empty (a rest : string) :
  digit_group a -> String.eqb (a ++ rest) EmptyString = false.
Proof. intros [H _]. destruct a; [congruence | reflexivity]. Qed.

Lemma digit_group_head (b : string) :
  digit_group b -> exists c t, b = String c t.
Proof. intros [H _]. destruct b as [|c t]; [congruence | eauto]. Qed.

Lemma mark_has_no_colon (x : string) :
  In x hour_marks \/ In x minute_marks -> count_char ":" x = O.
Proof. intros [H | H]; simpl in H; intuition (subst; reflexivity). Qed.

Lemma separator_colons (sep : string) :
  In sep separators -> (count_char ":" sep <= 1)%nat.
Proof. simpl. intuition (subst; simpl; lia). Qed.

Lemma optional_minutes_present (m : captures) (b : string) :
  group 2 m = Some b -> digit_group b ->
  optional_minutes m = Int (decimal_value b).
Proof.
  intros G Db. unfold optional_minutes. rewrite G.
  destruct b as [|c t]; [now destruct Db|].
  now apply parseInt_digit_group.
Qed.

(** *** Hours marker *)

Lemma hours_shape_dispatch (a mark y : string) :
  digit_group a -> In mark hour_marks ->
  (count_char ":" y <= 1)%nat ->
  dispatch (a ++ mark ++ y) = HoursMark.
Proof.
  intros [_ Da] Hmark Hy. rewrite dispatch_by_count.
  rewrite !count_char_append, (digits_count ":" a eq_refl Da),
    (mark_has_no_colon mark (or_introl Hmark)).
  destruct (count_char ":" y =? 2)%nat eqn:E;
    [apply Nat.eqb_eq in E; simpl in E; lia|].
  simpl. rewrite E. rewrite !includes_append.
  replace (includes "h" mark) with true
    by (simpl in Hmark; intuition (subst; reflexivity)).
  now rewrite orb_true_r.
Qed.

Lemma hours_marker_alone (raw a mark : string) :
  digit_group a -> In mark hour_marks ->
  normalize raw = a ++ mark ->
  dispatch (normalize raw) = HoursMark /\
  parseDuration raw =
    Some (duration_of (decimal_value a) 0 (decimal_value a * 3600)).
Proof.
  intros Da Hmark N.
  assert (D : dispatch (normalize raw) = HoursMark).
  { rewrite N, <- (append_empty_r mark).
    apply hours_shape_dispatch; simpl; auto. }
  split; [exact D|].
  unfold parseDuration. cbv zeta. rewrite D, N.
  rewrite (digit_group_not_empty a mark Da).
  unfold parse_hours. rewrite (re_hours_without_minutes a mark Da Hmark).
  unfold group_text, optional_minutes. cbn [group Nat.eqb].
  rewrite (parseInt_digit_group a Da).
  unfold duration_of, total_seconds, add, mul. do 3 f_equal. lia.
Qed.

Lemma hours_marker_with_minutes (raw a mark sep b : string) :
  digit_group a -> In mark hour_marks -> In sep separators ->
  digit_group b ->
  normalize raw = a ++ mark ++ sep ++ b ->
  dispatch (normalize raw) = HoursMark /\
  parseDuration raw =
    Some (duration_of (decimal_value a) (decimal_value b)
            (decimal_value a * 3600 + decimal_value b * 60)).
Proof.
  intros Da Hmark Hsep Db N.
  assert (D : dispatch (normalize raw) = HoursMark).
  { rewrite N. apply hours_shape_dispatch; auto.
    rewrite count_char_append, (digits_count ":" b eq_refl (proj2 Db)).
    pose proof (separator_colons sep Hsep). lia. }
  split; [exact D|].
  unfold parseDuration. cbv zeta. rewrite D, N.
  rewrite (digit_group_not_empty a _ Da).
  unfold parse_hours.
  rewrite (re_hours_with_minutes a mark sep b Da Hmark Hsep Db).
  rewrite (optional_minutes_present [(2%nat, b); (1%nat, a)] b eq_refl Db).
  unfold group_text. cbn [group Nat.eqb].
  now rewrite (parseInt_digit_group a Da).
Qed.

(** X4: with an h in the text (and not three colon parts) [parseDuration]
    returns a duration [d] whose numbers are below 2^53 exactly for
    digits followed by h or hours, optionally followed by more digits
    with an optional colon or dot in front of them.  The first digits
    are the hours, the second the minutes (0 when absent), both read at
    face value, and the seconds are what they amount to. *)
Theorem hours_marker_accepts_exactly (raw : string) (d : Duration) :
  in_exact_range d ->
  (dispatch (normalize raw) = HoursMark /\ parseDuration raw = Some d <->
   exists a mark,
     digit_group a /\ In mark hour_marks /\
     ((normalize raw = a ++ mark /\
       d = duration_of (decimal_value a) 0 (decimal_value a * 3600)) \/
      exists sep b,
        In sep separators /\ digit_group b /\
        normalize raw = a ++ mark ++ sep ++ b /\
        d = duration_of (decimal_value a) (decimal_value b)
              (decimal_value a * 3600 + decimal_value b * 60))).
Proof.
  intros _.
  split.
  - intros [D P].
    assert (Hh : includes "h" (normalize raw) = true).
    { rewrite dispatch_by_count in D.
      destruct (count_char ":" (normalize raw) =? 2)%nat; [discriminate|].
      destruct (includes "h" (normalize raw)); [reflexivity|].
      repeat match type of D with
             | (if ?c then _ else _) = _ => destruct c; try discriminate
             end. }
    assert (L : lang true re_hours (normalize raw)).
    { apply full_match_lang. unfold parseDuration in P. cbv zeta in P.
      destruct (String.eqb (normalize raw) EmptyString); [discriminate|].
      rewrite D in P. unfold parse_hours in P.
      destruct (full_match true re_hours (normalize raw));
        [discriminate | discriminate]. }
    destruct (lang_re_hours _ L (normalize_no_capital raw))
      as (a & x & y & N & Da & Hx & Hy).
    assert (Hmark : In x hour_marks).
    { destruct Hx as [-> | Hx]; [|exact Hx]. exfalso.
      rewrite N in Hh. simpl in Hh. rewrite includes_append in Hh.
      rewrite (digits_exclude "h" a eq_refl (proj2 Da)) in Hh.
      destruct Hy as [-> | (sep & b & Hsep & Db & ->)]; [discriminate|].
      rewrite includes_append in Hh.
      rewrite (digits_exclude "h" b eq_refl (proj2 Db)) in Hh.
      simpl in Hsep. intuition (subst; discriminate). }
    exists a, x. split; [exact Da|]. split; [exact Hmark|].
    destruct Hy as [-> | (sep & b & Hsep & Db & ->)].
    + left. rewrite append_empty_r in N. split; [exact N|].
      destruct (hours_marker_alone raw a x Da Hmark N) as [_ P'].
      congruence.
    + right. exists sep, b. repeat split; auto; try apply Db.
      destruct (hours_marker_with_minutes raw a x sep b Da Hmark Hsep Db N)
        as [_ P'].
      congruence.
  - intros (a & mark & Da & Hmark & [[N ->] | (sep & b & Hsep & Db & N & ->)]).
    + now apply hours_marker_alone with (mark := mark).
    + now apply hours_marker_with_minutes with (mark := mark) (sep := sep).
Qed.

Lemma hours_marker_accepts_exactly_witness :
  in_exact_range (duration_of 3 15 11700) /\
  (dispatch (normalize "3h15") = HoursMark /\
   parseDuration "3h15" = Some (duration_of 3 15 11700) <->
   exists a mark,
     digit_group a /\ In mark hour_marks /\
     ((normalize "3h15" = a ++ mark /\
       duration_of 3 15 11700 =
         duration_of (decimal_value a) 0 (decimal_value a * 3600)) \/
      exists sep b,
        In sep separators /\ digit_group b /\
        normalize "3h15" = a ++ mark ++ sep ++ b /\
        duration_of 3 15 11700 =
          duration_of (decimal_value a) (decimal_value b)
            (decimal_value a * 3600 + decimal_value b * 60))).
Proof.
  assert (R : in_exact_range (duration_of 3 15 11700))
    by (repeat split; reflexivity).
  split; [exact R|].
  exact (hours_marker_accepts_exactly "3h15" (duration_of 3 15 11700) R).
Defined.

(** *** Minutes marker *)

Lemma minutes_mark_letters (x : string) :
  In x minute_marks -> includes "h" x = false /\ includes "m" x = true.
Proof. simpl. intuition (subst; reflexivity). Qed.

Lemma minutes_marker_shape (raw a mark : string) :
  digit_group a -> In mark minute_marks ->
  normalize raw = a ++ mark ->
  dispatch (normalize raw) = MinutesMark /\
  parseDuration raw =
    Some (duration_of 0 (decimal_value a) (decimal_value a * 60)).
Proof.
  intros Da Hmark N.
  destruct (minutes_mark_letters mark Hmark) as [Hh Hm].
  assert (D : dispatch (normalize raw) = MinutesMark).
  { rewrite N, dispatch_by_count.
    rewrite count_char_append, (digits_count ":" a eq_refl (proj2 Da)),
      (mark_has_no_colon mark (or_intror Hmark)).
    simpl. rewrite !includes_append, Hh, Hm.
    rewrite (digits_exclude "h" a eq_refl (proj2 Da)).
    now rewrite orb_true_r. }
  split; [exact D|].
  unfold parseDuration. cbv zeta. rewrite D, N.
  rewrite (digit_group_not_empty a mark Da).
  unfold parse_minutes. rewrite (re_minutes_with_mark a mark Da Hmark).
  unfold group_text. cbn [group Nat.eqb].
  now rewrite (parseInt_digit_group a Da).
Qed.

(** X5: with an m and no h in the text (and not three colon parts)
    [parseDuration] returns a duration [d] whose numbers are below 2^53
    exactly for digits followed by m, min or minutes.  The digits are
    the minutes at face value, the hours are 0 and the seconds are sixty
    times the minutes. *)
Theorem minutes_marker_accepts_exactly (raw : string) (d : Duration) :
  in_exact_range d ->
  (dispatch (normalize raw) = MinutesMark /\ parseDuration raw = Some d <->
   exists a mark,
     digit_group a /\ In mark minute_marks /\
     normalize raw = a ++ mark /\
     d = duration_of 0 (decimal_value a) (decimal_value a * 60)).
Proof.
  intros _.
  split.
  - intros [D P].
    assert (Hm : includes "m" (normalize raw) = true).
    { rewrite dispatch_by_count in D.
      destruct (includes "m" (normalize raw)); [reflexivity|].
      repeat match type of D with
             | (if ?c then _ else _) = _ => destruct c; try discriminate
             end. }
    assert (L : lang true re_minutes (normalize raw)).
    { apply full_match_lang. unfold parseDuration in P. cbv zeta in P.
      destruct (String.eqb (normalize raw) EmptyString); [discriminate|].
      rewrite D in P. unfold parse_minutes in P.
      destruct (full_match true re_minutes (normalize raw));
        [discriminate | discriminate]. }
    destruct (lang_re_minutes _ L (normalize_no_capital raw))
      as (a & x & N & Da & Hx).
    assert (Hmark : In x minute_marks).
    { destruct Hx as [-> | Hx]; [|exact Hx]. exfalso.
      rewrite N, append_empty_r in Hm.
      now rewrite (digits_exclude "m" a eq_refl (proj2 Da)) in Hm. }
    exists a, x. repeat split; auto; try apply Da.
    destruct (minutes_marker_shape raw a x Da Hmark N) as [_ P'].
    congruence.
  - intros (a & mark & Da & Hmark & N & ->).
    now apply minutes_marker_shape with (mark := mark).
Qed.

Lemma minutes_marker_accepts_exactly_witness :
  in_exact_range (duration_of 0 90 5400) /\
  (dispatch (normalize "90 min") = MinutesMark /\
   parseDuration "90 min" = Some (duration_of 0 90 5400) <->
   exists a mark,
     digit_group a /\ In mark minute_marks /\
     normalize "90 min" = a ++ mark /\
     duration_of 0 90 5400 =
       duration_of 0 (decimal_value a) (decimal_value a * 60)).
Proof.
  assert (R : in_exact_range (duration_of 0 90 5400))
    by (repeat split; reflexivity).
  split; [exact R|].
  exact (minutes_marker_accepts_exactly "90 min" (duration_of 0 90 5400) R).
Defined.

(** *** Bare digits *)

Lemma bare_digits_shape (raw : string) :
  digit_group (normalize raw) ->
  dispatch (normalize raw) = Bare /\
  parseDuration raw =
    Some (duration_of (decimal_value (normalize raw)) 0
            (decimal_value (normalize raw) * 3600)).
Proof.
  intros Da. set (a := normalize raw) in *.
  assert (D : dispatch a = Bare).
  { rewrite dispatch_by_count.
    rewrite (digits_count ":" a eq_refl (proj2 Da)). simpl.
    now rewrite (digits_exclude "h" a eq_refl (proj2 Da)),
      (digits_exclude "m" a eq_refl (proj2 Da)),
      (digits_exclude ":" a eq_refl (proj2 Da)),
      (digits_exclude "." a eq_refl (proj2 Da)). }
  split; [exact D|].
  unfold parseDuration. cbv zeta. fold a. rewrite D.
  rewrite <- (append_empty_r a) at 1.
  rewrite (digit_group_not_empty a EmptyString Da).
  unfold parse_bare. rewrite (re_bare_digits a Da).
  unfold group_text, optional_minutes. cbn [group Nat.eqb].
  rewrite (parseInt_digit_group a Da).
  unfold duration_of, total_seconds, add, mul. do 3 f_equal. lia.
Qed.

(** X6: for a text without h, m, colon or dot [parseDuration] returns a
    duration [d] whose numbers are below 2^53 exactly when the text
    consists of digits, and then all of them are the hours: the minutes
    are 0 however the digits could be divided (315 is 315 hours). *)
Theorem bare_digits_accepts_exactly (raw : string) (d : Duration) :
  in_exact_range d ->
  (dispatch (normalize raw) = Bare /\ parseDuration raw = Some d <->
   digit_group (normalize raw) /\
   d = duration_of (decimal_value (normalize raw)) 0
         (decimal_value (normalize raw) * 3600)).
Proof.
  intros _.
  split.
  - intros [D P].
    assert (Hc : includes ":" (normalize raw) = false /\
                 includes "." (normalize raw) = false).
    { rewrite dispatch_by_count in D.
      destruct (includes ":" (normalize raw)), (includes "." (normalize raw));
        try (split; reflexivity);
        repeat match type of D with
               | (if ?c then _ else _) = _ => destruct c; try discriminate
               end. }
    assert (L : lang false re_bare (normalize raw)).
    { apply full_match_lang. unfold parseDuration in P. cbv zeta in P.
      destruct (String.eqb (normalize raw) EmptyString); [discriminate|].
      rewrite D in P. unfold parse_bare in P.
      destruct (full_match false re_bare (normalize raw));
        [discriminate | discriminate]. }
    destruct (lang_re_bare _ L) as (a & y & N & Da & Hy).
    assert (Dn : digit_group (normalize raw)).
    { rewrite N. destruct Hy as [-> | (sep & b & Hsep & Db & ->)].
      - now rewrite append_empty_r.
      - destruct Hc as [Hc Hd]. rewrite N, !includes_append in Hc, Hd.
        apply orb_false_iff in Hc, Hd.
        destruct Hc as [_ Hc], Hd as [_ Hd].
        apply orb_false_iff in Hc, Hd.
        destruct Hc as [Hc _], Hd as [Hd _].
        assert (sep = EmptyString)
          by (destruct Hsep as [<- | [<- | [<- | []]]];
              [reflexivity | discriminate | discriminate]).
        subst sep. simpl. split.
        + destruct a; [now destruct Da | discriminate].
        + rewrite string_all_append, (proj2 Da), (proj2 Db). reflexivity. }
    split; [exact Dn|].
    destruct (bare_digits_shape raw Dn) as [_ P']. congruence.
  - intros [Dn ->]. now apply bare_digits_shape.
Qed.

Lemma bare_digits_accepts_exactly_witness :
  in_exact_range (duration_of 315 0 1134000) /\
  (dispatch (normalize "315") = Bare /\
   parseDuration "315" = Some (duration_of 315 0 1134000) <->
   digit_group (normalize "315") /\
   duration_of 315 0 1134000 =
     duration_of (decimal_value (normalize "315")) 0
       (decimal_value (normalize "315") * 3600)).
Proof.
  assert (R : in_exact_range (duration_of 315 0 1134000))
    by (repeat split; reflexivity).
  split; [exact R|].
  exact (bare_digits_accepts_exactly "315" (duration_of 315 0 1134000) R).
Defined.

(** *** Pairs *)

Lemma pair_split (sep : ascii) (a b : string) :
  is_digit sep = false -> digit_group a -> digit_group b ->
  split sep (a ++ String sep b) = [a; b].
Proof.
  intros Hsep [_ Da] [_ Db].
  rewrite split_append by now apply digits_exclude.
  rewrite split_whole by now apply digits_exclude. reflexivity.
Qed.

Lemma pair_of_digit_groups (raw a b : string) (sep : ascii) :
  sep = ":"%char \/ sep = "."%char ->
  digit_group a -> digit_group b ->
  normalize raw = a ++ String sep b ->
  parseDuration raw =
    Some (duration_of (decimal_value a) (decimal_value b)
            (decimal_value a * 3600 + decimal_value b * 60)).
Proof.
  intros Hsep Da Db N.
  unfold parseDuration. cbv zeta. rewrite N.
  rewrite (digit_group_not_empty a _ Da).
  rewrite dispatch_by_count.
  rewrite count_char_append, (digits_count ":" a eq_refl (proj2 Da)).
  cbn [count_char].
  rewrite (digits_count ":" b eq_refl (proj2 Db)).
  rewrite !includes_append. cbn [includes].
  rewrite (digits_exclude "h" a eq_refl (proj2 Da)),
    (digits_exclude "h" b eq_refl (proj2 Db)),
    (digits_exclude "m" a eq_refl (proj2 Da)),
    (digits_exclude "m" b eq_refl (proj2 Db)),
    (digits_exclude ":" a eq_refl (proj2 Da)),
    (digits_exclude ":" b eq_refl (proj2 Db)),
    (digits_exclude "." a eq_refl (proj2 Da)),
    (digits_exclude "." b eq_refl (proj2 Db)).
  destruct Hsep as [-> | ->]; cbn; unfold parse_pair;
    rewrite pair_split by auto;
    now rewrite (parseInt_digit_group a Da), (parseInt_digit_group b Db).
Qed.

(** X7: two groups of digits joined by one dot are read exactly as the
    same groups joined by one colon (3.5 is 3 hours 5 minutes); as long
    as the seconds they amount to stay below 2^53, the groups are the
    hours and the minutes at face value, and minutes above 59 are not
    carried into the hours. *)
Theorem colon_and_dot_pairs_agree (raw1 raw2 a b : string) :
  digit_group a -> digit_group b ->
  normalize raw1 = a ++ ":" ++ b ->
  normalize raw2 = a ++ "." ++ b ->
  parseDuration raw2 = parseDuration raw1 /\
  (decimal_value a * 3600 + decimal_value b * 60 < 2 ^ 53 ->
   parseDuration raw1 =
     Some (duration_of (decimal_value a) (decimal_value b)
             (decimal_value a * 3600 + decimal_value b * 60))).
Proof.
  intros Da Db N1 N2.
  rewrite (pair_of_digit_groups raw1 a b ":" (or_introl eq_refl) Da Db N1).
  rewrite (pair_of_digit_groups raw2 a b "." (or_intror eq_refl) Da Db N2).
  split; [reflexivity | intros _; reflexivity].
Qed.

Lemma colon_and_dot_pairs_agree_witness :
  (digit_group "3" /\ digit_group "75" /\
   normalize "3 : 75" = "3" ++ ":" ++ "75" /\
   normalize "3.75" = "3" ++ "." ++ "75") /\
  parseDuration "3.75" = parseDuration "3 : 75" /\
  (decimal_value "3" * 3600 + decimal_value "75" * 60 < 2 ^ 53 ->
   parseDuration "3 : 75" =
     Some (duration_of (decimal_value "3") (decimal_value "75")
             (decimal_value "3" * 3600 + decimal_value "75" * 60))).
Proof.
  assert (D3 : digit_group "3") by (split; [discriminate | reflexivity]).
  assert (D75 : digit_group "75") by (split; [discriminate | reflexivity]).
  split; [repeat split; try discriminate; reflexivity|].
  exact (colon_and_dot_pairs_agree "3 : 75" "3.75" "3" "75" D3 D75
           eq_refl eq_refl).
Defined.

(** *** Colons *)

Lemma parseDuration_branch (raw : string) (d : Duration) :
  parseDuration raw = Some d ->
  match dispatch (normalize raw) with
  | HMS => parse_hms (normalize raw)
  | HoursMark => parse_hours (normalize raw)
  | MinutesMark => parse_minutes (normalize raw)
  | ColonPair => parse_pair ":" (normalize raw)
  | DotPair => parse_pair "." (normalize raw)
  | Bare => parse_bare (normalize raw)
  end = Some d.
Proof.
  unfold parseDuration. cbv zeta.
  now destruct (String.eqb (normalize raw) EmptyString).
Qed.

Lemma parse_hours_lang (input : string) (d : Duration) :
  parse_hours input = Some d -> lang true re_hours input.
Proof.
  unfold parse_hours. intros P. apply full_match_lang.
  destruct (full_match true re_hours input); discriminate.
Qed.

Lemma parse_minutes_lang (input : string) (d : Duration) :
  parse_minutes input = Some d -> lang true re_minutes input.
Proof.
  unfold parse_minutes. intros P. apply full_match_lang.
  destruct (full_match true re_minutes input); discriminate.
Qed.

Lemma tail_colons (y : string) :
  y = EmptyString \/
  (exists sep b, In sep separators /\ digit_group b /\ y = sep ++ b) ->
  (count_char ":" y <= 1)%nat.
Proof.
  intros [-> | (sep & b & Hsep & Db & ->)]; [simpl; lia|].
  rewrite count_char_append, (digits_count ":" b eq_refl (proj2 Db)).
  pose proof (separator_colons sep Hsep). lia.
Qed.

(** X8: a text with more than two colons is always rejected, whatever
    else it contains. *)
Theorem more_than_two_colons_rejected (raw : string) :
  (2 < count_char ":" (normalize raw))%nat -> parseDuration raw = None.
Proof.
  intros H. destruct (parseDuration raw) as [d|] eqn:P; [exfalso | reflexivity].
  apply parseDuration_branch in P.
  pose proof (dispatch_by_count (normalize raw)) as D.
  destruct (count_char ":" (normalize raw) =? 2)%nat eqn:E;
    [apply Nat.eqb_eq in E; lia|].
  assert (C0 : includes ":" (normalize raw) = false -> False).
  { intros C. apply count_char_includes in C. lia. }
  destruct (includes "h" (normalize raw)) eqn:Hh.
  - rewrite D in P. apply parse_hours_lang in P.
    destruct (lang_re_hours _ P (normalize_no_capital raw))
      as (a & x & y & N & Da & Hx & Hy).
    rewrite N, !count_char_append in H.
    rewrite (digits_count ":" a eq_refl (proj2 Da)) in H.
    pose proof (tail_colons y Hy).
    destruct Hx as [-> | Hx]; [simpl in H; lia|].
    rewrite (mark_has_no_colon x (or_introl Hx)) in H. lia.
  - destruct (includes "m" (normalize raw)) eqn:Hm.
    + rewrite D in P. apply parse_minutes_lang in P.
      destruct (lang_re_minutes _ P (normalize_no_capital raw))
        as (a & x & N & Da & Hx).
      rewrite N, !count_char_append in H.
      rewrite (digits_count ":" a eq_refl (proj2 Da)) in H.
      destruct Hx as [-> | Hx]; [simpl in H; lia|].
      rewrite (mark_has_no_colon x (or_intror Hx)) in H. lia.
    + destruct (includes ":" (normalize raw)) eqn:Hc; [|now apply C0].
      rewrite D in P. unfold parse_pair in P.
      pose proof (split_length ":" (normalize raw)) as L.
      destruct (split ":" (normalize raw)) as [|p0 [|p1 [|p2 l]]];
        simpl in L; try discriminate; lia.
Qed.

Lemma more_than_two_colons_rejected_witness :
  (2 < count_char ":" (normalize "1:2:3:4"))%nat /\
  parseDuration "1:2:3:4" = None.
Proof.
  assert (H : (2 < count_char ":" (normalize "1:2:3:4"))%nat)
    by (vm_compute; lia).
  split; [exact H|].
  exact (more_than_two_colons_rejected "1:2:3:4" H).
Defined.

(** *** What the pair branches overlook *)

Lemma digit_prefix_run (a t : string) :
  string_all is_digit a = true -> run_ends false CDigit t ->
  digit_prefix (a ++ t) = a.
Proof.
  intros Ha Ht. induction a as [|c a IH]; cbn [append digit_prefix].
  - destruct t as [|x t]; [reflexivity|].
    change (is_digit x = false) in Ht. cbn [digit_prefix]. now rewrite Ht.
  - cbn [string_all] in Ha. apply andb_true_iff in Ha.
    destruct Ha as [Hc Ha]. now rewrite Hc, (IH Ha).
Qed.

(** [parseInt] reads the leading digits and overlooks what follows. *)
Lemma parseInt_leading_digits (a t : string) :
  digit_group a -> run_ends false CDigit t ->
  parseInt (a ++ t) = Int (decimal_value a).
Proof.
  intros [Ha0 Ha] Ht. destruct a as [|c a]; [congruence|].
  pose proof Ha as Ha'. simpl in Ha'. apply andb_true_iff in Ha'.
  destruct Ha' as [Hc Hs]. cbn [append].
  rewrite (parseInt_starts_with_digit c (a ++ t) Hc).
  rewrite (digit_prefix_run a t Hs Ht), read_digits_from_zero.
  f_equal. lia.
Qed.

(** X9: in the colon-pair branch only the leading digits of the two
    parts count: whatever follows them (letters other than h and m,
    signs, dots) is overlooked, and the text is accepted with the hours
    and minutes of the leading digits (as long as the seconds they
    amount to stay below 2^53). *)
Theorem colon_pair_reads_leading_digits (raw a ta b tb : string) :
  digit_group a -> digit_group b ->
  run_ends false CDigit ta -> run_ends false CDigit tb ->
  includes ":" ta = false -> includes ":" tb = false ->
  normalize raw = (a ++ ta) ++ ":" ++ (b ++ tb) ->
  dispatch (normalize raw) = ColonPair ->
  decimal_value a * 3600 + decimal_value b * 60 < 2 ^ 53 ->
  parseDuration raw =
    Some (duration_of (decimal_value a) (decimal_value b)
            (decimal_value a * 3600 + decimal_value b * 60)).
Proof.
  intros Da Db Hta Htb Ca Cb N D _.
  unfold parseDuration. cbv zeta. rewrite D, N.
  rewrite append_assoc, (digit_group_not_empty a _ Da), <- append_assoc.
  unfold parse_pair. cbn [append].
  rewrite split_append, split_whole.
  - now rewrite (parseInt_leading_digits a ta Da Hta),
      (parseInt_leading_digits b tb Db Htb).
  - rewrite includes_append, Cb.
    now rewrite (digits_exclude ":" b eq_refl (proj2 Db)).
  - rewrite includes_append, Ca.
    now rewrite (digits_exclude ":" a eq_refl (proj2 Da)).
Qed.

Lemma colon_pair_reads_leading_digits_witness :
  (digit_group "3" /\ digit_group "15" /\
   run_ends false CDigit "x" /\ run_ends false CDigit "-y.z" /\
   includes ":" "x" = false /\ includes ":" "-y.z" = false /\
   normalize "3x:15-y.z" = ("3" ++ "x") ++ ":" ++ ("15" ++ "-y.z") /\
   dispatch (normalize "3x:15-y.z") = ColonPair /\
   decimal_value "3" * 3600 + decimal_value "15" * 60 < 2 ^ 53) /\
  parseDuration "3x:15-y.z" =
    Some (duration_of 3 15 (3 * 3600 + 15 * 60)).
Proof.
  assert (D3 : digit_group "3") by (split; [discriminate | reflexivity]).
  assert (D15 : digit_group "15") by (split; [discriminate | reflexivity]).
  split; [repeat split; try discriminate; reflexivity|].
  exact (colon_pair_reads_leading_digits "3x:15-y.z" "3" "x" "15" "-y.z"
           D3 D15 eq_refl eq_refl eq_refl eq_refl eq_refl eq_refl eq_refl).
Defined.

(** ** The canonical text *)

Lemma colon_char_facts (c : ascii) :
  Ascii.eqb (lower_char c) ":" = Ascii.eqb c ":" /\
  (is_white c = true -> Ascii.eqb c ":" = false).
Proof.
  destruct c as [[|] [|] [|] [|] [|] [|] [|] [|]];
    vm_compute; split; try reflexivity; intros H; try discriminate;
    reflexivity.
Qed.

(** The normalisation neither adds nor removes a colon. *)
Lemma normalize_keeps_colons (s : string) :
  count_char ":" (normalize s) = count_char ":" s.
Proof.
  rewrite normalize_without_trim.
  induction s as [|c s IH]; [reflexivity|].
  destruct (colon_char_facts c) as [Hl Hw].
  cbn [remove_white]. destruct (is_white c) eqn:W.
  - rewrite IH. cbn [count_char]. now rewrite (Hw eq_refl).
  - cbn [toLowerCase count_char]. now rewrite Hl, IH.
Qed.

Lemma decimal_no_colon (n : N) : count_char ":" (decimal n) = O.
Proof. apply digits_count; [reflexivity | apply decimal_is_digit_group]. Qed.

Lemma toString_no_colon (x : number) : count_char ":" (toString x) = O.
Proof.
  destruct x as [|z]; [reflexivity|]. unfold toString.
  destruct (z <? 0); [cbn [count_char]|]; now rewrite decimal_no_colon.
Qed.

Lemma repeat_char_count (c fill : ascii) (k : nat) :
  Ascii.eqb fill c = false -> count_char c (repeat_char fill k) = O.
Proof.
  intros H. induction k as [|k IH]; simpl; [reflexivity|]. now rewrite H.
Qed.

Lemma padStart_facts (x : number) :
  count_char ":" (padStart 2 "0" (toString x)) = O /\
  (2 <= String.length (padStart 2 "0" (toString x)))%nat.
Proof.
  unfold padStart.
  destruct (2 <=? String.length (toString x))%nat eqn:E.
  - apply Nat.leb_le in E. split; [apply toString_no_colon | exact E].
  - apply Nat.leb_gt in E. split.
    + rewrite count_char_append, toString_no_colon.
      now rewrite repeat_char_count.
    + rewrite length_append.
      assert (L : forall k, String.length (repeat_char "0" k) = k)
        by (induction k; simpl; congruence).
      rewrite L. lia.
Qed.

(** X10: whatever the three numbers of a duration are (negative and NaN
    included), [formatHMS] returns a text that splits on the colon into
    exactly three parts, each at least two code units wide, so that
    [parseDuration] always reads a canonical text by the hh:mm:ss rule. *)
Theorem formatHMS_always_three_parts (d : Duration) :
  exists HH MM SS,
    split ":" (formatHMS d) = [HH; MM; SS] /\
    (2 <= String.length HH /\ 2 <= String.length MM /\
     2 <= String.length SS)%nat /\
    dispatch (normalize (formatHMS d)) = HMS.
Proof.
  destruct (padStart_facts (hours d)) as [Ch Lh].
  destruct (padStart_facts (minutes d)) as [Cm Lm].
  destruct (padStart_facts (rem (seconds d) (Int 60))) as [Cs Ls].
  exists (padStart 2 "0" (toString (hours d))),
         (padStart 2 "0" (toString (minutes d))),
         (padStart 2 "0" (toString (rem (seconds d) (Int 60)))).
  split; [|split; [auto|]].
  - unfold formatHMS. cbv zeta. cbn [append].
    rewrite split_append by now apply count_char_includes.
    rewrite split_append by now apply count_char_includes.
    rewrite split_whole by now apply count_char_includes.
    reflexivity.
  - rewrite dispatch_by_count, normalize_keeps_colons.
    unfold formatHMS. cbv zeta.
    rewrite !count_char_append, Ch, Cm, Cs. reflexivity.
Qed.

Lemma canonical_text_parses (h m s : Z) :
  0 <= h < 2 ^ 53 -> 0 <= m < 2 ^ 53 -> 0 <= s < 2 ^ 53 ->
  parseDuration (formatHMS (duration_of h m s)) =
    Some (duration_of h m (s mod 60)).
Proof.
  intros [Hh _] [Hm _] [Hs _].
  destruct (rem_60_nonneg s Hs) as [Hrem Hrange].
  destruct (pad2_spec h Hh) as (_ & Dh & _ & Vh & _).
  destruct (pad2_spec m Hm) as (_ & Dm & _ & Vm & _).
  destruct (pad2_spec (s mod 60) (proj1 Hrange)) as (_ & Ds & _ & Vs & _).
  assert (S : hms_shape (normalize (formatHMS (duration_of h m s)))
                (padStart 2 "0" (toString (Int h)))
                (padStart 2 "0" (toString (Int m)))
                (padStart 2 "0" (toString (Int (s mod 60))))).
  { split; [exact Dh|]. split; [exact Dm|]. split; [exact Ds|].
    unfold formatHMS, duration_of. cbn [hours minutes seconds].
    rewrite Hrem. apply normalize_stable.
    apply colon_stable; [now apply digit_group_stable|].
    apply colon_stable; now apply digit_group_stable. }
  destruct (parse_hms_shape _ _ _ _ S) as [_ P].
  now rewrite P, Vh, Vm, Vs.
Qed.

(** X11: the canonical text of a duration of non-negative integers
    below 2^53 is stable: parsed and written again it is the same text,
    so the value stored for submission survives being read back as an
    initial value. *)
Theorem canonical_text_is_stable (h m s : Z) :
  0 <= h < 2 ^ 53 -> 0 <= m < 2 ^ 53 -> 0 <= s < 2 ^ 53 ->
  exists d',
    parseDuration (formatHMS (duration_of h m s)) = Some d' /\
    formatHMS d' = formatHMS (duration_of h m s).
Proof.
  intros Hh Hm Hs. exists (duration_of h m (s mod 60)).
  split; [now apply canonical_text_parses|].
  destruct (rem_60_nonneg s (proj1 Hs)) as [Hrem Hrange].
  destruct (rem_60_nonneg (s mod 60) (proj1 Hrange)) as [Hrem' _].
  unfold formatHMS, duration_of. cbn [hours minutes seconds].
  now rewrite Hrem, Hrem', Z.mod_mod by lia.
Qed.

Lemma canonical_text_is_stable_witness :
  (0 <= 123 < 2 ^ 53 /\ 0 <= 5 < 2 ^ 53 /\ 0 <= 3725 < 2 ^ 53) /\
  exists d',
    parseDuration (formatHMS (duration_of 123 5 3725)) = Some d' /\
    formatHMS d' = formatHMS (duration_of 123 5 3725).
Proof.
  split; [lia|].
  apply (canonical_text_is_stable 123 5 3725); lia.
Defined.

(** ** The suggestion text read back *)

Lemma normalize_skips_blank (a w b : string) :
  string_all is_white w = true ->
  normalize (a ++ w ++ b) = normalize (a ++ b).
Proof.
  intros Hw. rewrite !normalize_without_trim, !remove_white_append.
  now rewrite (remove_white_blank w Hw).
Qed.

Lemma formatSuggestion_two_units (h m s : Z) :
  0 < h -> 0 < m ->
  formatSuggestion (duration_of h m s) =
    (toString (Int h) ++ "h") ++ " " ++ toString (Int m) ++ "m".
Proof.
  intros Hh Hm. unfold formatSuggestion, duration_of.
  cbn [hours minutes strict_eq gt truthy].
  assert (E1 : (h =? 0) = false) by (apply Z.eqb_neq; lia).
  assert (E2 : (m =? 0) = false) by (apply Z.eqb_neq; lia).
  now rewrite E1, E2.
Qed.

(** The hours-marker pattern has no place for an m. *)
Lemma re_hours_has_no_m (s : string) :
  lang true re_hours s -> string_all not_capital s = true ->
  count_char "m" s = O.
Proof.
  intros L Hs. destruct (lang_re_hours s L Hs) as (a & x & y & -> & Da & Hx & Hy).
  rewrite !count_char_append, (digits_count "m" a eq_refl (proj2 Da)).
  assert (Cx : count_char "m" x = O).
  { destruct Hx as [-> | Hx]; [reflexivity|].
    simpl in Hx. intuition (subst; reflexivity). }
  assert (Cy : count_char "m" y = O).
  { destruct Hy as [-> | (sep & b & Hsep & Db & ->)]; [reflexivity|].
    rewrite count_char_append, (digits_count "m" b eq_refl (proj2 Db)).
    simpl in Hsep. intuition (subst; reflexivity). }
  now rewrite Cx, Cy.
Qed.

Lemma suggestion_two_units_rejected (h m s : Z) :
  0 < h -> 0 < m ->
  parseDuration (formatSuggestion (duration_of h m s)) = None.
Proof.
  intros Hh Hm. rewrite (formatSuggestion_two_units h m s Hh Hm).
  destruct (toString_value h ltac:(lia)) as [DH _].
  destruct (toString_value m ltac:(lia)) as [DM _].
  set (H := toString (Int h)) in *. set (M := toString (Int m)) in *.
  assert (N : normalize ((H ++ "h") ++ " " ++ M ++ "m") =
              H ++ "h" ++ M ++ "m").
  { rewrite (normalize_skips_blank (H ++ "h") " " (M ++ "m") eq_refl).
    rewrite append_assoc. apply normalize_stable.
    rewrite string_all_append, (digit_group_stable H DH).
    cbn [append string_all andb].
    rewrite string_all_append, (digit_group_stable M DM). reflexivity. }
  destruct (parseDuration ((H ++ "h") ++ " " ++ M ++ "m")) as [d|] eqn:P;
    [exfalso | reflexivity].
  apply parseDuration_branch in P.
  pose proof (normalize_no_capital ((H ++ "h") ++ " " ++ M ++ "m")) as Cap.
  rewrite N in P, Cap.
  assert (D : dispatch (H ++ "h" ++ M ++ "m") = HoursMark).
  { apply hours_shape_dispatch; [exact DH | simpl; auto |].
    rewrite count_char_append, (digits_count ":" M eq_refl (proj2 DM)).
    simpl. lia. }
  rewrite D in P. apply parse_hours_lang in P.
  pose proof (re_hours_has_no_m _ P Cap) as C.
  rewrite !count_char_append in C.
  rewrite (digits_count "m" H eq_refl (proj2 DH)),
    (digits_count "m" M eq_refl (proj2 DM)) in C.
  simpl in C. lia.
Qed.

(** X12: the suggestion of a duration of non-negative integers is
    rejected by [parseDuration] when it names both hours and minutes;
    when it names a single unit (hours or minutes are 0, the suggestion
    0h included) and the seconds that the unit amounts to stay below
    2^53, it is read back with the same hours and minutes. *)
Theorem suggestion_parses_back_iff_single_unit (h m s : Z) :
  0 <= h -> 0 <= m ->
  (h = 0 \/ m = 0 -> h * 3600 + m * 60 < 2 ^ 53 ->
   parseDuration (formatSuggestion (duration_of h m s)) =
     Some (duration_of h m (h * 3600 + m * 60))) /\
  (0 < h /\ 0 < m ->
   parseDuration (formatSuggestion (duration_of h m s)) = None).
Proof.
  intros Hh Hm. split.
  - intros Hz Hr. now apply suggestion_roundtrip_single_unit.
  - intros [Hh' Hm']. now apply suggestion_two_units_rejected.
Qed.

Lemma suggestion_parses_back_iff_single_unit_witness :
  (0 <= 3 /\ 0 <= 15) /\
  (3 = 0 \/ 15 = 0 -> 3 * 3600 + 15 * 60 < 2 ^ 53 ->
   parseDuration (formatSuggestion (duration_of 3 15 11700)) =
     Some (duration_of 3 15 (3 * 3600 + 15 * 60))) /\
  (0 < 3 /\ 0 < 15 ->
   parseDuration (formatSuggestion (duration_of 3 15 11700)) = None).
Proof.
  split; [lia|].
  apply (suggestion_parses_back_iff_single_unit 3 15 11700); lia.
Defined.

(** ** The merged configuration *)

Lemma lookup_map_values (f : string -> value -> value) (key : string)
      (o : object) :
  lookup key (map (fun '(k, v) => (k, f k v)) o) =
    match lookup key o with
    | Some v => Some (f key v)
    | None => None
    end.
Proof.
  induction o as [|[k v] o IH]; [reflexivity|].
  cbn [map lookup]. destruct (String.eqb key k) eqn:E; [|exact IH].
  apply String.eqb_eq in E. now subst k.
Qed.

(** X13: the merged configuration holds exactly the default options: for
    an option of [defaultConfig] it has the user's value when the user's
    object has that key (even when that value is undefined) and the
    default otherwise; every other key of the user's object is dropped. *)
Theorem mergeConfig_lookup (userConfig : option object) (key : string) :
  lookup key (mergeConfig userConfig) =
    match lookup key defaultConfig with
    | Some dflt =>
        match userConfig with
        | Some u =>
            match lookup key u with
            | Some v => Some v
            | None => Some dflt
            end
        | None => Some dflt
        end
    | None => None
    end.
Proof.
  unfold mergeConfig.
  rewrite (lookup_map_values
             (fun k dflt =>
                match userConfig with
                | Some u => if has_key k u then get k u else dflt
                | None => dflt
                end)).
  destruct (lookup key defaultConfig) as [dflt|]; [|reflexivity].
  destruct userConfig as [u|]; [|reflexivity].
  unfold has_key, get. now destruct (lookup key u).
Qed.

(** X14: without a user object, or with one that has none of the default
    keys, the merged configuration is [defaultConfig] itself. *)
Theorem mergeConfig_defaults (u : object) :
  (forall key, In key (map fst defaultConfig) -> has_key key u = false) ->
  mergeConfig None = defaultConfig /\ mergeConfig (Some u) = defaultConfig.
Proof.
  intros H. split; [reflexivity|].
  unfold mergeConfig, defaultConfig. cbn [map].
  rewrite !H by (simpl; auto 10). reflexivity.
Qed.

Lemma mergeConfig_defaults_witness :
  (forall key, In key (map fst defaultConfig) ->
               has_key key [("theme", VStr "dark")] = false) /\
  mergeConfig None = defaultConfig /\
  mergeConfig (Some [("theme", VStr "dark")]) = defaultConfig.
Proof.
  assert (H : forall key, In key (map fst defaultConfig) ->
                          has_key key [("theme", VStr "dark")] = false).
  { intros key Hin. simpl in Hin.
    repeat (destruct Hin as [<- | Hin]; [reflexivity|]). destruct Hin. }
  split; [exact H|].
  exact (mergeConfig_defaults [("theme", VStr "dark")] H).
Defined.

(** X15: merging is idempotent: a merged configuration passed to
    [mergeConfig] again comes back unchanged. *)
Theorem mergeConfig_idempotent (userConfig : option object) :
  mergeConfig (Some (mergeConfig userConfig)) = mergeConfig userConfig.
Proof. destruct userConfig as [u|]; reflexivity. Qed.

(** ** The handlers of a bound field *)

Lemma output_is_formatHMS (config : object) (d : Duration) :
  output config d = formatHMS d.
Proof.
  unfold output. destruct (get "outputFormat" config) as [| | | |s];
    try reflexivity.
  repeat (destruct s as [|[[|] [|] [|] [|] [|] [|] [|] [|]] s];
          try reflexivity).
Qed.

Lemma blank_is_rejected (st : field) :
  blank st = true -> parseDuration (value_of st) = None.
Proof.
  unfold blank. intros H. apply String.eqb_eq in H.
  unfold parseDuration, normalize. now rewrite H.
Qed.

Lemma parsed_is_not_blank (st : field) (d : Duration) :
  parseDuration (value_of st) = Some d -> blank st = false.
Proof.
  intros P. destruct (blank st) eqn:B; [|reflexivity].
  rewrite (blank_is_rejected st B) in P. discriminate.
Qed.

(** The blur handler on a text that parses, and on one that does not. *)
Lemma on_blur_parsed (config : object) (st : field) (d : Duration) :
  parseDuration (value_of st) = Some d ->
  on_blur config st =
    mkField (formatSuggestion d) (required st) false EmptyString
            (formatHMS d) (items st) (shown st).
Proof.
  intros P. unfold on_blur, updateValidity. cbv zeta.
  rewrite P, (parsed_is_not_blank st d P), output_is_formatHMS.
  reflexivity.
Qed.

Lemma on_blur_rejected (config : object) (st : field) :
  parseDuration (value_of st) = None ->
  on_blur config st =
    if blank st && negb (required st)
    then mkField (value_of st) (required st) false EmptyString EmptyString
                 (items st) (shown st)
    else mkField (value_of st) (required st) true (invalid_message config)
                 EmptyString (items st) (shown st).
Proof.
  intros P. unfold on_blur, updateValidity. cbv zeta. rewrite P.
  destruct (blank st && negb (required st)); reflexivity.
Qed.

Lemma on_input_parsed (config : object) (st : field) (d : Duration) :
  parseDuration (value_of st) = Some d ->
  on_input config st =
    mkField (value_of st) (required st) false EmptyString (formatHMS d)
            [mkSuggestion (formatSuggestion d) d] true.
Proof.
  intros P. unfold on_input, updateValidity. cbv zeta.
  change (value_of (set_items [] st)) with (value_of st).
  change (blank (set_items [] st)) with (blank st).
  rewrite P, (parsed_is_not_blank st d P), output_is_formatHMS.
  reflexivity.
Qed.

Lemma on_input_rejected (config : object) (st : field) :
  parseDuration (value_of st) = None ->
  on_input config st =
    if blank st && negb (required st)
    then mkField (value_of st) (required st) false EmptyString EmptyString
                 [] false
    else mkField (value_of st) (required st) true (invalid_message config)
                 EmptyString [] false.
Proof.
  intros P. unfold on_input, updateValidity. cbv zeta.
  change (value_of (set_items [] st)) with (value_of st).
  change (blank (set_items [] st)) with (blank st).
  change (required (set_items [] st)) with (required st).
  rewrite P. destruct (blank st && negb (required st)); reflexivity.
Qed.



(** ** Leaving the field twice *)

Lemma formatSuggestion_ignores_seconds (h m s s' : Z) :
  formatSuggestion (duration_of h m s) = formatSuggestion (duration_of h m s').
Proof. reflexivity. Qed.

Lemma formatHMS_whole_minutes (h m : Z) :
  formatHMS (duration_of h m (h * 3600 + m * 60)) =
    padStart 2 "0" (toString (Int h)) ++ ":" ++
    padStart 2 "0" (toString (Int m)) ++ ":00".
Proof.
  unfold formatHMS, duration_of. cbn [hours minutes seconds].
  now rewrite whole_minutes_rem.
Qed.

(** X17: when the text of the field parses to a duration of non-negative
    integers that has hours or minutes but not both, and the seconds
    they amount to stay below 2^53, leaving the field a second time
    keeps it unflagged with the same suggestion as its text, and writes
    the canonical text of the hours and minutes with 00 seconds to the
    hidden field: seconds typed in hh:mm:ss form do not survive the
    second blur. *)
Theorem second_blur_single_unit (config : object) (st : field)
        (h m s : Z) :
  parseDuration (value_of st) = Some (duration_of h m s) ->
  0 <= h -> 0 <= m -> h = 0 \/ m = 0 ->
  h * 3600 + m * 60 < 2 ^ 53 ->
  on_blur config (on_blur config st) =
    mkField (formatSuggestion (duration_of h m s)) (required st) false
            EmptyString
            (padStart 2 "0" (toString (Int h)) ++ ":" ++
             padStart 2 "0" (toString (Int m)) ++ ":00")
            (items st) (shown st).
Proof.
  intros P Hh Hm Hz Hr.
  rewrite (on_blur_parsed config st _ P).
  rewrite (on_blur_parsed config _ (duration_of h m (h * 3600 + m * 60))).
  - cbn [required items shown].
    rewrite <- formatHMS_whole_minutes.
    now rewrite (formatSuggestion_ignores_seconds h m _ s).
  - cbn [value_of]. now apply suggestion_roundtrip_single_unit.
Qed.

Lemma second_blur_single_unit_witness :
  let st := mkField "01:00:30" false false EmptyString EmptyString [] false in
  (parseDuration (value_of st) = Some (duration_of 1 0 30) /\
   0 <= 1 /\ 0 <= 0 /\ (1 = 0 \/ 0 = 0) /\
   1 * 3600 + 0 * 60 < 2 ^ 53) /\
  on_blur defaultConfig (on_blur defaultConfig st) =
    mkField "1h" false false EmptyString "01:00:00" [] false.
Proof.
  intros st.
  assert (P : parseDuration (value_of st) = Some (duration_of 1 0 30))
    by reflexivity.
  split; [repeat split; auto; lia|].
  exact (second_blur_single_unit defaultConfig st 1 0 30 P
           ltac:(lia) ltac:(lia) (or_intror eq_refl) eq_refl).
Defined.

Lemma two_units_not_blank (h m s : Z) :
  0 < h -> 0 < m ->
  String.eqb (trim (formatSuggestion (duration_of h m s))) EmptyString = false.
Proof.
  intros Hh Hm. rewrite (formatSuggestion_two_units h m s Hh Hm).
  destruct (toString_value h ltac:(lia)) as [[H0 HD] _].
  destruct (toString (Int h)) as [|c t]; [congruence|].
  simpl in HD. apply andb_true_iff in HD. destruct HD as [Hc _].
  destruct (digit_is_stable c Hc) as (Hw & _ & _).
  unfold trim. cbn [append trimStart]. rewrite Hw.
  cbn [trimEnd].
  rewrite Hw. destruct (trimEnd _); reflexivity.
Qed.

(** X18: when the text of the field parses to a duration with positive
    hours and positive minutes, leaving the field a second time flags it
    as invalid, with the configured message and an empty hidden value:
    the suggestion the first blur wrote into the field is not accepted
    by the parser. *)
Theorem second_blur_two_units (config : object) (st : field) (h m s : Z) :
  parseDuration (value_of st) = Some (duration_of h m s) ->
  0 < h -> 0 < m ->
  on_blur config (on_blur config st) =
    mkField (formatSuggestion (duration_of h m s)) (required st) true
            (invalid_message config) EmptyString (items st) (shown st).
Proof.
  intros P Hh Hm.
  rewrite (on_blur_parsed config st _ P).
  rewrite on_blur_rejected
    by (cbn [value_of]; now apply suggestion_two_units_rejected).
  unfold blank. cbn [value_of required items shown].
  now rewrite (two_units_not_blank h m s Hh Hm).
Qed.

Lemma second_blur_two_units_witness :
  let st := mkField "3h15" false false EmptyString EmptyString [] false in
  (parseDuration (value_of st) = Some (duration_of 3 15 11700) /\
   0 < 3 /\ 0 < 15) /\
  on_blur defaultConfig (on_blur defaultConfig st) =
    mkField "3h 15m" false true
            "Please enter a valid time (e.g. 3h15 or 01:30:00)."
            EmptyString [] false.
Proof.
  intros st.
  assert (P : parseDuration (value_of st) = Some (duration_of 3 15 11700))
    by reflexivity.
  split; [repeat split; lia|].
  exact (second_blur_two_units defaultConfig st 3 15 11700 P
           ltac:(lia) ltac:(lia)).
Defined.

(** ** What holds after every sequence of events *)

Lemma run_preserves (config : object) (P : field -> Prop) :
  (forall ev st, P st -> P (handle config ev st)) ->
  forall evs st, P st -> P (run config evs st).
Proof.
  intros Hstep evs. unfold run.
  induction evs as [|ev evs IH]; intros st Hst; [exact Hst|].
  cbn [fold_left]. apply IH. now apply Hstep.
Qed.

Lemma on_load_cases (config : object) (st : field) :
  on_load config st = st \/ on_load config st = on_blur config st.
Proof.
  unfold on_load.
  destruct (value_truthy (get "autoParseOnLoad" config) && negb (blank st));
    [right; reflexivity | left; reflexivity].
Qed.

Lemma on_blur_keeps_dropdown (config : object) (st : field) :
  items (on_blur config st) = items st /\
  shown (on_blur config st) = shown st.
Proof.
  destruct (parseDuration (value_of st)) as [d|] eqn:P.
  - rewrite (on_blur_parsed config st d P). auto.
  - rewrite (on_blur_rejected config st P).
    destruct (blank st && negb (required st)); auto.
Qed.

Lemma on_blur_flag_and_message (config : object) (st : field) :
  validity (on_blur config st) =
    if is_invalid (on_blur config st) then invalid_message config
    else EmptyString.
Proof.
  destruct (parseDuration (value_of st)) as [d|] eqn:P.
  - now rewrite (on_blur_parsed config st d P).
  - rewrite (on_blur_rejected config st P).
    now destruct (blank st && negb (required st)).
Qed.

Lemma on_input_flag_and_message (config : object) (st : field) :
  validity (on_input config st) =
    if is_invalid (on_input config st) then invalid_message config
    else EmptyString.
Proof.
  destruct (parseDuration (value_of st)) as [d|] eqn:P.
  - now rewrite (on_input_parsed config st d P).
  - rewrite (on_input_rejected config st P).
    now destruct (blank st && negb (required st)).
Qed.

Lemma on_input_dropdown (config : object) (st : field) :
  dropdown_ok (on_input config st).
Proof.
  unfold dropdown_ok.
  destruct (parseDuration (value_of st)) as [d|] eqn:P.
  - rewrite (on_input_parsed config st d P). cbn [items shown List.length].
    split; [lia|]. split; [|discriminate].
    intros it [<- | []]. reflexivity.
  - rewrite (on_input_rejected config st P).
    destruct (blank st && negb (required st)); cbn [items shown List.length];
      (split; [lia|]; split; [intros it []|discriminate]).
Qed.

Lemma handle_keeps_dropdown_ok (config : object) (ev : event) (st : field) :
  dropdown_ok st -> dropdown_ok (handle config ev st).
Proof.
  intros (L & T & S). destruct ev as [v| |i|]; cbn [handle].
  - apply on_input_dropdown.
  - destruct (on_blur_keeps_dropdown config st) as [Ei Es].
    unfold dropdown_ok. now rewrite Ei, Es.
  - destruct (nth_error (items st) i); [|now repeat split].
    unfold dropdown_ok, on_suggestion_click. cbn [items shown set_shown].
    repeat split; auto. discriminate.
  - unfold dropdown_ok, on_outside_click. cbn [items shown set_shown].
    repeat split; auto. discriminate.
Qed.

Lemma bound_dropdown (config : object) (v : string) (req : bool) :
  items (bound config v req) = [] /\
  shown (bound config v req) = initially_shown config.
Proof.
  unfold bound.
  destruct (on_load_cases config
              (mkField v req false EmptyString EmptyString []
                       (initially_shown config)))
    as [-> | ->]; [auto|].
  apply on_blur_keeps_dropdown.
Qed.

Lemma dropdown_ok_suggestions (st : field) :
  dropdown_ok st -> suggestions_ok st.
Proof. intros (L & T & _). now split. Qed.

Lemma handle_keeps_suggestions_ok (config : object) (ev : event)
      (st : field) :
  suggestions_ok st -> suggestions_ok (handle config ev st).
Proof.
  intros [L T]. destruct ev as [v| |i|]; cbn [handle].
  - apply dropdown_ok_suggestions, on_input_dropdown.
  - destruct (on_blur_keeps_dropdown config st) as [Ei _].
    unfold suggestions_ok. now rewrite Ei.
  - destruct (nth_error (items st) i); now split.
  - now split.
Qed.

(** X19: at all times, whatever the user types, leaves or clicks, the
    dropdown of a bound field holds at most one suggestion, and the text
    of a suggestion is the suggestion text of the duration its click
    will store; unless the configured class of the dropdown already
    contains show, the dropdown is only shown when it holds a
    suggestion. *)
Theorem dropdown_invariant (config : object) (v : string) (req : bool)
        (evs : list event) :
  let st := run config evs (bound config v req) in
  suggestions_ok st /\
  (initially_shown config = false -> shown st = true -> items st <> []).
Proof.
  cbv zeta. destruct (bound_dropdown config v req) as [Ei Es]. split.
  - apply run_preserves.
    + intros ev st. apply handle_keeps_suggestions_ok.
    + unfold suggestions_ok. rewrite Ei. cbn [List.length].
      split; [lia | intros it []].
  - intros Hinit.
    assert (D : dropdown_ok (run config evs (bound config v req))).
    { apply run_preserves.
      - intros ev st. apply handle_keeps_dropdown_ok.
      - unfold dropdown_ok. rewrite Ei, Es, Hinit. cbn [List.length].
        split; [lia|]. split; [intros it []|discriminate]. }
    apply D.
Qed.

Lemma handle_keeps_flag_and_message (config : object) (ev : event)
      (st : field) :
  validity st = (if is_invalid st then invalid_message config
                 else EmptyString) ->
  validity (handle config ev st) =
    if is_invalid (handle config ev st) then invalid_message config
    else EmptyString.
Proof.
  intros H. destruct ev as [v| |i|]; cbn [handle].
  - apply on_input_flag_and_message.
  - apply on_blur_flag_and_message.
  - destruct (nth_error (items st) i); exact H.
  - exact H.
Qed.

(** X20: at all times, whatever the user types, leaves or clicks, the
    custom validity message of a bound field is the configured message
    when the field is flagged as invalid and empty when it is not: the
    flag shown to the user and the message handed to the browser never
    disagree. *)
Theorem flag_and_message_agree (config : object) (v : string) (req : bool)
        (evs : list event) :
  let st := run config evs (bound config v req) in
  validity st =
    if is_invalid st then invalid_message config else EmptyString.
Proof.
  cbv zeta.
  apply (run_preserves config
           (fun st => validity st =
                      if is_invalid st then invalid_message config
                      else EmptyString)).
  - intros ev st. apply handle_keeps_flag_and_message.
  - unfold bound.
    destruct (on_load_cases config
                (mkField v req false EmptyString EmptyString []
                         (initially_shown config)))
      as [-> | ->]; [reflexivity|].
    apply on_blur_flag_and_message.
Qed.

(** X21: once a text that parses has been typed, the dropdown shows the
    one suggestion for it, and clicking that suggestion leaves the same
    text in the field and the same hidden value as leaving the field
    does: the suggestion text and the canonical text of the duration. *)
Theorem accepting_suggestion_agrees_with_blur (config : object)
        (st : field) (v : string) (d : Duration) :
  parseDuration v = Some d ->
  let typed := handle config (Typed v) st in
  let clicked := handle config (Clicked 0) typed in
  let left := handle config Blurred typed in
  items typed = [mkSuggestion (formatSuggestion d) d] /\
  shown typed = true /\
  (value_of clicked = formatSuggestion d /\ hidden clicked = formatHMS d) /\
  (value_of left = formatSuggestion d /\ hidden left = formatHMS d) /\
  shown clicked = false.
Proof.
  intros P. cbv zeta. cbn [handle].
  assert (T : on_input config (set_value v st) =
              mkField v (required st) false EmptyString (formatHMS d)
                      [mkSuggestion (formatSuggestion d) d] true).
  { now rewrite (on_input_parsed config (set_value v st) d P). }
  rewrite T. cbn [items nth_error].
  rewrite (on_blur_parsed config
             (mkField v (required st) false EmptyString (formatHMS d)
                      [mkSuggestion (formatSuggestion d) d] true) d P).
  unfold on_suggestion_click.
  cbn [value_of hidden shown set_shown set_hidden set_value text captured].
  rewrite output_is_formatHMS. repeat split.
Qed.

Lemma accepting_suggestion_agrees_with_blur_witness :
  parseDuration "90m" = Some (duration_of 0 90 5400) /\
  let st := mkField EmptyString false false EmptyString EmptyString [] false in
  let typed := handle defaultConfig (Typed "90m") st in
  let clicked := handle defaultConfig (Clicked 0) typed in
  let left := handle defaultConfig Blurred typed in
  items typed =
    [mkSuggestion (formatSuggestion (duration_of 0 90 5400))
                  (duration_of 0 90 5400)] /\
  shown typed = true /\
  (value_of clicked = formatSuggestion (duration_of 0 90 5400) /\
   hidden clicked = formatHMS (duration_of 0 90 5400)) /\
  (value_of left = formatSuggestion (duration_of 0 90 5400) /\
   hidden left = formatHMS (duration_of 0 90 5400)) /\
  shown clicked = false.
Proof.
  split; [reflexivity|].
  exact (accepting_suggestion_agrees_with_blur defaultConfig
           (mkField EmptyString false false EmptyString EmptyString [] false)
           "90m" (duration_of 0 90 5400) eq_refl).
Defined.

(** X22: the canonical text determines the duration it was written
    from: two durations of non-negative integers with the same canonical
    text have the same hours, the same minutes and the same seconds
    modulo 60. *)
Theorem canonical_text_determines_duration (h1 m1 s1 h2 m2 s2 : Z) :
  0 <= h1 -> 0 <= m1 -> 0 <= s1 -> 0 <= h2 -> 0 <= m2 -> 0 <= s2 ->
  formatHMS (duration_of h1 m1 s1) = formatHMS (duration_of h2 m2 s2) ->
  h1 = h2 /\ m1 = m2 /\ s1 mod 60 = s2 mod 60.
Proof.
  intros Hh1 Hm1 Hs1 Hh2 Hm2 Hs2 E.
  destruct (rem_60_nonneg s1 Hs1) as [R1 G1].
  destruct (rem_60_nonneg s2 Hs2) as [R2 G2].
  destruct (pad2_spec h1 Hh1) as (_ & Dh1 & _ & Vh1 & _).
  destruct (pad2_spec m1 Hm1) as (_ & Dm1 & _ & Vm1 & _).
  destruct (pad2_spec (s1 mod 60) (proj1 G1)) as (_ & Ds1 & _ & Vs1 & _).
  destruct (pad2_spec h2 Hh2) as (_ & Dh2 & _ & Vh2 & _).
  destruct (pad2_spec m2 Hm2) as (_ & Dm2 & _ & Vm2 & _).
  destruct (pad2_spec (s2 mod 60) (proj1 G2)) as (_ & Ds2 & _ & Vs2 & _).
  cbv beta iota delta [formatHMS duration_of hours minutes seconds] in E.
  rewrite R1, R2 in E. apply (f_equal (split ":")) in E.
  rewrite !split_hms in E
    by (apply Dh1 || apply Dm1 || apply Ds1 ||
        apply Dh2 || apply Dm2 || apply Ds2).
  injection E as Eh Em Es.
  split; [|split].
  - rewrite <- Vh1, <- Vh2. apply (f_equal decimal_value). exact Eh.
  - rewrite <- Vm1, <- Vm2. apply (f_equal decimal_value). exact Em.
  - rewrite <- Vs1, <- Vs2. apply (f_equal decimal_value). exact Es.
Qed.

Lemma canonical_text_determines_duration_witness :
  (0 <= 1 /\ 0 <= 30 /\ 0 <= 65 /\ 0 <= 1 /\ 0 <= 30 /\ 0 <= 5 /\
   formatHMS (duration_of 1 30 65) = formatHMS (duration_of 1 30 5)) /\
  1 = 1 /\ 30 = 30 /\ 65 mod 60 = 5 mod 60.
Proof.
  split; [repeat split; try lia; reflexivity|].
  apply (canonical_text_determines_duration 1 30 65 1 30 5);
    try lia; reflexivity.
Defined.
